(** * skillmatch: the resume-to-job matching pipeline of [core/views.py]

    A shallow embedding of the text utilities, the skill extractor, the resume
    check, the TF-IDF scorer, the draft-score loop of [upload_resume], the
    status transitions of [submit_application], [toggle_shortlist] and the
    admin actions, the listings of [job_list] and [my_applications] and the
    registration view, together with the properties the specification states
    about them and further properties read off the code.

    Texts are [string]s of 8-bit characters: the model covers ASCII text, on
    which Python's [str.lower], [str.strip] and [sorted] act as written
    below. *)

From Stdlib Require Import List String Ascii Bool Arith Lia NArith ZArith.
From Stdlib Require Import Sorting.Permutation Sorting.Sorted.
From Stdlib Require Import Floats.
Import ListNotations.

Local Open Scope string_scope.
Local Open Scope list_scope.

(** ** Python string operations *)

Module PyStr.

(** [str.lower] on one character: 'A'..'Z' move down by 32. *)
Definition lower_char (c : ascii) : ascii :=
  let n := nat_of_ascii c in
  if ((65 <=? n) && (n <=? 90))%nat then ascii_of_nat (n + 32) else c.

Fixpoint lower (s : string) : string :=
  match s with
  | EmptyString => EmptyString
  | String c r => String (lower_char c) (lower r)
  end.

(** [sub in s]: [sub] occurs in [s] as a contiguous block. *)
Fixpoint contains (sub s : string) : bool :=
  String.prefix sub s ||
  match s with
  | EmptyString => false
  | String _ r => contains sub r
  end.

(** [str.isspace] on one ASCII character: tab, newline, vertical tab, form
    feed, carriage return, the separators 28..31 and the space. *)
Definition is_space (c : ascii) : bool :=
  let n := nat_of_ascii c in
  (((9 <=? n) && (n <=? 13)) || ((28 <=? n) && (n <=? 32)))%nat.

Fixpoint lstrip (s : string) : string :=
  match s with
  | EmptyString => EmptyString
  | String c r => if is_space c then lstrip r else s
  end.

Fixpoint rstrip (s : string) : string :=
  match s with
  | EmptyString => EmptyString
  | String c r =>
      match rstrip r with
      | EmptyString => if is_space c then EmptyString else String c EmptyString
      | r' => String c r'
      end
  end.

Definition strip (s : string) : string := rstrip (lstrip s).

(** [s.split(sep)] for a one-character separator: never the empty list. *)
Fixpoint split (sep : ascii) (s : string) : list string :=
  match s with
  | EmptyString => [EmptyString]
  | String c r =>
      if Ascii.eqb c sep then EmptyString :: split sep r
      else match split sep r with
           | [] => [String c EmptyString]
           | w :: ws => String c w :: ws
           end
  end.

(** [sep.join(l)] *)
Definition join (sep : string) (l : list string) : string := String.concat sep l.

(** Truth value of a string: the empty string is false. *)
Definition truthy (s : string) : bool :=
  match s with EmptyString => false | _ => true end.

(** [s.endswith(suffix)] *)
Definition endswith (s suffix : string) : bool :=
  let n := String.length s in
  let m := String.length suffix in
  (m <=? n)%nat && String.eqb (String.substring (n - m) m s) suffix.

(** [set(l)]: the distinct elements; a Python set has no order of its own,
    every use below goes through [sorted]. *)
Definition set_of (l : list string) : list string := nodup string_dec l.

(** Set difference [a - b]. *)
Definition set_diff (a b : list string) : list string :=
  filter (fun x => negb (existsb (String.eqb x) b)) a.

(** [sorted(l)] on strings: ascending by code point, lexicographically. *)
Fixpoint insert_sorted (x : string) (l : list string) : list string :=
  match l with
  | [] => [x]
  | y :: r => if String.leb x y then x :: l else y :: insert_sorted x r
  end.

Fixpoint sorted (l : list string) : list string :=
  match l with
  | [] => []
  | x :: r => insert_sorted x (sorted r)
  end.

End PyStr.

Import PyStr.

(** ** Skill extraction and the resume check *)

Definition SKILL_KEYWORDS : list string :=
  [ "python"; "java"; "c++"; "c"; "html"; "css"; "javascript"; "react";
    "angular"; "node"; "django"; "flask"; "spring"; "sql"; "mysql";
    "postgresql"; "mongodb"; "oracle"; "git"; "github"; "docker"; "aws";
    "azure"; "gcp"; "pandas"; "numpy"; "matplotlib"; "tensorflow"; "keras";
    "pytorch"; "machine learning"; "deep learning"; "nlp"; "data analysis";
    "data science"; "excel"; "power bi"; "tableau"; "linux" ].

(** The loop of [extract_skills_from_text]: the keywords of [vocab] found in
    the lowered text, in the order of [vocab]. *)
Definition found_skills (vocab : list string) (text : string) : list string :=
  let text_lower := lower text in
  filter (fun skill => contains skill text_lower) vocab.

(** [extract_skills_from_text] over an arbitrary keyword list. *)
Definition extract_skills_with (vocab : list string) (text : string) : string :=
  let unique_sorted := sorted (set_of (found_skills vocab text)) in
  join ", " unique_sorted.

Definition extract_skills_from_text (text : string) : string :=
  extract_skills_with SKILL_KEYWORDS text.

Definition RESUME_KEYWORDS : list string :=
  [ "education"; "experience"; "skills"; "project";
    "b.tech"; "btech"; "bachelor"; "masters"; "internship";
    "curriculum vitae"; "resume" ].

(** The test of step 2 of [upload_resume], as the condition under which the
    upload goes on: [not (len(cleaned) < 200 or not any(...))]. *)
Definition looks_like_resume (cleaned : string) : bool :=
  negb ((String.length cleaned <? 200)%nat
        || negb (existsb (fun k => contains k (lower cleaned)) RESUME_KEYWORDS)).

(** ** Missing skills *)

(** [{s.strip().lower() for s in text.split(",") if s.strip()}] *)
Definition skills_set (text : string) : list string :=
  set_of (map (fun s => lower (strip s))
              (filter (fun s => truthy (strip s)) (split "," text))).

(** [", ".join(sorted(job_skills_set - user_skills_set))] *)
Definition missing_skills (skills_text job_required_skills : string) : string :=
  let user_skills_set := skills_set skills_text in
  let job_skills_set := skills_set job_required_skills in
  join ", " (sorted (set_diff job_skills_set user_skills_set)).

(** ** TF-IDF and cosine similarity

    [TfidfVectorizer(stop_words="english")] and [cosine_similarity] belong to
    scikit-learn, not to this repository. They are modelled here with the
    library's default settings, on the two-document corpus the view passes:
    lower-casing, tokens [\b\w\w+\b], stop-word removal, sorted vocabulary,
    smoothed idf, l2-normalised rows, and the dot product of the rows
    normalised once more. Values are IEEE binary64 numbers. The stop-word
    table is an argument of the model. *)

Module Sklearn.

Local Open Scope float_scope.

(** [\w] on ASCII: letters, digits and the underscore. *)
Definition is_word_char (c : ascii) : bool :=
  let n := nat_of_ascii c in
  (((48 <=? n) && (n <=? 57)) || ((65 <=? n) && (n <=? 90))
   || ((97 <=? n) && (n <=? 122)) || (n =? 95))%nat.

(** Maximal runs of word characters; [cur] is the run being read, reversed. *)
Fixpoint word_runs (cur : list ascii) (s : string) : list string :=
  match s with
  | EmptyString => [string_of_list_ascii (rev cur)]
  | String c r =>
      if is_word_char c then word_runs (c :: cur) r
      else string_of_list_ascii (rev cur) :: word_runs [] r
  end.

(** [re.findall(r"\b\w\w+\b", doc.lower())] *)
Definition tokenize (doc : string) : list string :=
  filter (fun w => (2 <=? String.length w)%nat) (word_runs [] (lower doc)).

(** The analyzer: tokens that are not stop words. *)
Definition analyze (stop_words : list string) (doc : string) : list string :=
  filter (fun w => negb (existsb (String.eqb w) stop_words)) (tokenize doc).

(** The fitted vocabulary, in sorted order; the position is the feature index. *)
Definition vocabulary (stop_words : list string) (docs : list string) : list string :=
  sorted (set_of (flat_map (analyze stop_words) docs)).

Definition term_count (t : string) (terms : list string) : nat :=
  List.length (filter (String.eqb t) terms).

Definition float_of_nat (n : nat) : float :=
  PrimFloat.of_uint63 (Uint63.of_Z (Z.of_nat n)).

(** [log((1 + 2) / (1 + df)) + 1] for a corpus of two documents: a term is in
    one document, [log(1.5) + 1], or in both, [log(1.0) + 1]. *)
Definition idf2 (df : nat) : float :=
  if (df =? 2)%nat then 1 else 0x1.67cc8fb2fe613p+0.

(** A sparse row: the stored entries [(feature index, weight)]. *)
Definition row := list (nat * float).

Fixpoint tfidf_row (terms : list string) (dfs : list nat) (i : nat)
    (vocab : list string) : row :=
  match vocab, dfs with
  | t :: vocab', df :: dfs' =>
      let n := term_count t terms in
      if (n =? 0)%nat then tfidf_row terms dfs' (S i) vocab'
      else (i, float_of_nat n * idf2 df) :: tfidf_row terms dfs' (S i) vocab'
  | _, _ => []
  end.

(** [normalize(X, norm="l2")] on one row: a row whose norm is zero is left
    as it is. *)
Definition normalize_l2 (r : row) : row :=
  let sum := fold_left (fun acc e => acc + snd e * snd e) r 0 in
  if PrimFloat.eqb sum 0 then r
  else let norm := PrimFloat.sqrt sum in map (fun e => (fst e, snd e / norm)) r.

Definition weight_at (i : nat) (r : row) : float :=
  match find (fun e => (fst e =? i)%nat) r with
  | Some e => snd e
  | None => 0
  end.

(** Product of two sparse rows: only features stored in both contribute. *)
Definition row_dot (x y : row) : float :=
  fold_left
    (fun acc e =>
       if existsb (fun e' => (fst e' =? fst e)%nat) y
       then acc + snd e * weight_at (fst e) y else acc)
    x 0.

(** [fit_transform([a, b])]: the two rows, or [None] for the [ValueError]
    ("empty vocabulary") of a corpus without any term. *)
Definition fit_transform (stop_words : list string) (a b : string)
    : option (row * row) :=
  let ta := analyze stop_words a in
  let tb := analyze stop_words b in
  match vocabulary stop_words [a; b] with
  | [] => None
  | vocab =>
      let dfs :=
        map (fun t => ((if (term_count t ta =? 0)%nat then 0 else 1)
                       + (if (term_count t tb =? 0)%nat then 0 else 1))%nat) vocab in
      Some (normalize_l2 (tfidf_row ta dfs 0 vocab),
            normalize_l2 (tfidf_row tb dfs 0 vocab))
  end.

(** [cosine_similarity(X, Y)[0][0]] *)
Definition cosine_similarity (x y : row) : float :=
  row_dot (normalize_l2 x) (normalize_l2 y).

End Sklearn.

(** ** The score of one (resume, job) pair *)

Module Scorer.

Import Sklearn.
Local Open Scope float_scope.

(** Nearest integer to [num / den], ties to even, for [0 <= num], [0 < den]. *)
Definition div_half_even (num den : Z) : Z :=
  let q := (num / den)%Z in
  let r := (num mod den)%Z in
  match (2 * r ?= den)%Z with
  | Lt => q
  | Gt => (q + 1)%Z
  | Eq => if Z.even q then q else (q + 1)%Z
  end.

(** [round(x, 2)]: the exact value of [x] is rounded to the nearest multiple
    of 0.01, ties to even, and that decimal is read back as a binary64
    number. Integral and non-finite values come back unchanged. The
    hundredths are held in a 63-bit integer, which is exact for the
    magnitudes a similarity times one hundred can take. *)
Definition round2 (x : float) : float :=
  match Prim2SF x with
  | S754_finite s m e =>
      if (0 <=? e)%Z then x
      else
        let n := div_half_even (Zpos m * 100) (2 ^ (- e)) in
        let f := PrimFloat.of_uint63 (Uint63.of_Z n) / 100 in
        if s then - f else f
  | _ => x
  end.

(** Lines 196-199 of [upload_resume]: [None] stands for the exception the
    vectorizer raises, which the view does not catch. *)
Definition score_value (stop_words : list string) (skills_text job_text : string)
    : option float :=
  match fit_transform stop_words skills_text job_text with
  | None => None
  | Some (x, y) =>
      let sim := cosine_similarity x y in
      Some (round2 (sim * 100))
  end.

End Scorer.

(** ** The data store ([core/models.py]) *)

Inductive Status : Type := DRAFT | SUBMITTED | SHORTLISTED | REJECTED.

Record Job : Type := mkJob {
  job_id : nat;
  job_title : string;
  required_skills : string
}.

Record Resume : Type := mkResume {
  resume_id : nat;
  resume_user : nat;
  resume_file : string;
  resume_skills : string
}.

Record Score : Type := mkScore {
  score_id : nat;
  score_resume : nat;
  score_job : nat;
  value : float;
  recommended_skills : string;
  is_shortlisted : bool;
  status : Status
}.

(** The three tables the views read and write. *)
Record DB : Type := mkDB {
  jobs : list Job;
  resumes : list Resume;
  scores : list Score
}.

Definition status_eqb (a b : Status) : bool :=
  match a, b with
  | DRAFT, DRAFT | SUBMITTED, SUBMITTED
  | SHORTLISTED, SHORTLISTED | REJECTED, REJECTED => true
  | _, _ => false
  end.

(** The primary key of a new row: one more than every key in use. *)
Definition next_id (ids : list nat) : nat := S (fold_right Nat.max 0 ids).

(** [score.resume.user], following the foreign key. *)
Definition score_owner (db : DB) (sc : Score) : option nat :=
  option_map resume_user
    (find (fun r => (resume_id r =? score_resume sc)%nat) (resumes db)).

(** The row filter [job=job, resume__user=user]. *)
Definition score_matches (db : DB) (user : nat) (job : Job) (sc : Score) : bool :=
  (score_job sc =? job_id job)%nat
  && match score_owner db sc with
     | Some u => (u =? user)%nat
     | None => false
     end.

(** [Score.objects.filter(job=job, resume__user=user).exists()] *)
Definition already_exists (db : DB) (user : nat) (job : Job) : bool :=
  existsb (score_matches db user job) (scores db).

(** [Resume.objects.create(user=..., file=..., skills=...)] *)
Definition create_resume (db : DB) (user : nat) (file skills : string)
    : DB * Resume :=
  let r := mkResume (next_id (map resume_id (resumes db))) user file skills in
  (mkDB (jobs db) (resumes db ++ [r]) (scores db), r).

(** [Score.objects.create(...)] *)
Definition create_score (db : DB) (resume : Resume) (job : Job) (v : float)
    (rec : string) (st : Status) (shortlisted : bool) : DB :=
  let sc := mkScore (next_id (map score_id (scores db))) (resume_id resume)
                    (job_id job) v rec shortlisted st in
  mkDB (jobs db) (resumes db) (scores db ++ [sc]).

(** ** The draft-score loop (step 6 of [upload_resume]) *)

(** How the loop ends: normally, with the flag [created_any], or with the
    vectorizer's exception. Rows created before an exception stay in the
    store: the view opens no transaction. *)
Inductive LoopEnd : Type :=
| Finished (created_any : bool)
| Raised.

Fixpoint create_draft_scores (stop_words : list string) (user : nat)
    (resume : Resume) (skills_text : string) (js : list Job) (db : DB)
    (created_any : bool) : DB * LoopEnd :=
  match js with
  | [] => (db, Finished created_any)
  | job :: rest =>
      if already_exists db user job then
        create_draft_scores stop_words user resume skills_text rest db created_any
      else
        let job_text := required_skills job in
        match Scorer.score_value stop_words skills_text job_text with
        | None => (db, Raised)
        | Some score_value =>
            let missing := missing_skills skills_text (required_skills job) in
            let db' := create_score db resume job score_value missing DRAFT false in
            create_draft_scores stop_words user resume skills_text rest db' true
        end
  end.

(** ** Requests, responses and the views *)

Record UploadedFile : Type := mkFile {
  file_name : string;
  file_bytes : string
}.

(** PyPDF2, python-docx and the codec are outside the repository: [None] is
    a parser that raised; a PDF yields the text of its pages ([None] for a
    page without text), a DOCX the text of its paragraphs. *)
Record Parsers : Type := mkParsers {
  pdf_pages : string -> option (list (option string));
  docx_paragraphs : string -> option (list string);
  decode_ignore : string -> option string
}.

Definition extract_text_from_resume (p : Parsers) (uploaded_file : UploadedFile)
    : string :=
  let filename := lower (file_name uploaded_file) in
  let file_bytes := file_bytes uploaded_file in
  if endswith filename ".pdf" then
    match pdf_pages p file_bytes with
    | Some pages =>
        fold_left
          (fun text page =>
             (text ++ (match page with Some t => t | None => "" end)
                   ++ String (ascii_of_nat 10) "")%string)
          pages ""
    | None => ""
    end
  else if endswith filename ".docx" then
    match docx_paragraphs p file_bytes with
    | Some paragraphs => join (String (ascii_of_nat 10) "") paragraphs
    | None => ""
    end
  else
    match decode_ignore p file_bytes with
    | Some text => text
    | None => ""
    end.

Inductive Level : Type := ERROR | WARNING | SUCCESS | INFO.

Inductive Response : Type :=
| Redirect (to : string) (message : option (Level * string))
| Render (template : string)
| Http404
| ServerError.

Record Request : Type := mkRequest {
  method : string;
  user : nat;
  FILES_resume : option UploadedFile;
  POST_skills : option string
}.

Definition MSG_NOT_A_RESUME : string :=
  ("The uploaded file does not look like a valid resume. " ++
  "Please upload a proper resume (PDF/DOCX) with your details.")%string.

Definition MSG_NO_SKILLS : string :=
  ("No technical skills were detected in your resume. " ++
  "Please clearly list your skills (e.g. 'Python, Django, SQL') " ++
  "in your resume and upload again.")%string.

Definition MSG_NOTHING_CREATED : string :=
  ("You have already created applications for all current jobs. " ++
  "No new applications were created.")%string.

Definition MSG_CREATED : string :=
  ("Resume analysed. Draft applications created for new jobs. " ++
  "Check 'My Applications' to see scores and skill suggestions.")%string.

Definition MSG_ALREADY_SUBMITTED : string :=
  "This application is already submitted.".

(** [request.method == "POST" and request.FILES.get("resume")]; an uploaded
    file is true when its name is not empty. *)
Definition posted_file (request : Request) : option UploadedFile :=
  if String.eqb (method request) "POST" then
    match FILES_resume request with
    | Some f => if truthy (file_name f) then Some f else None
    | None => None
    end
  else None.

Definition upload_resume (stop_words : list string) (p : Parsers) (db : DB)
    (request : Request) : DB * Response :=
  match posted_file request with
  | None => (db, Render "upload_resume.html")
  | Some file =>
      let resume_text := extract_text_from_resume p file in
      let cleaned := strip resume_text in
      if negb (looks_like_resume cleaned) then
        (db, Redirect "upload_resume" (Some (ERROR, MSG_NOT_A_RESUME)))
      else
        let extracted_skills := extract_skills_from_text cleaned in
        if negb (truthy extracted_skills) then
          (db, Redirect "upload_resume" (Some (ERROR, MSG_NO_SKILLS)))
        else
          let extra_skills :=
            strip (match POST_skills request with Some s => s | None => "" end) in
          let all_skills :=
            if truthy extra_skills then [extracted_skills; extra_skills]
            else [extracted_skills] in
          let skills_text := join ", " all_skills in
          let (db1, resume) :=
            create_resume db (user request) (file_name file) skills_text in
          match create_draft_scores stop_words (user request) resume skills_text
                  (jobs db1) db1 false with
          | (db2, Raised) => (db2, ServerError)
          | (db2, Finished false) =>
              (db2, Redirect "my_applications" (Some (WARNING, MSG_NOTHING_CREATED)))
          | (db2, Finished true) =>
              (db2, Redirect "my_applications" (Some (SUCCESS, MSG_CREATED)))
          end
  end.

(** [score.save()]: the row with the key of [sc] is replaced by [sc]. *)
Definition save_score (db : DB) (sc : Score) : DB :=
  mkDB (jobs db) (resumes db)
       (map (fun s => if (score_id s =? score_id sc)%nat then sc else s) (scores db)).

Definition set_status (sc : Score) (st : Status) : Score :=
  mkScore (score_id sc) (score_resume sc) (score_job sc) (value sc)
          (recommended_skills sc) (is_shortlisted sc) st.

Definition set_shortlisted (sc : Score) (b : bool) : Score :=
  mkScore (score_id sc) (score_resume sc) (score_job sc) (value sc)
          (recommended_skills sc) b (status sc).

Definition job_title_of (db : DB) (sc : Score) : string :=
  match find (fun j => (job_id j =? score_job sc)%nat) (jobs db) with
  | Some j => job_title j
  | None => ""
  end.

(** [submit_application], behind [login_required]: [user] is the logged-in
    applicant. *)
Definition submit_application (db : DB) (user score_id' : nat) : DB * Response :=
  match find (fun s => (score_id s =? score_id')%nat
                       && match score_owner db s with
                          | Some u => (u =? user)%nat
                          | None => false
                          end) (scores db) with
  | None => (db, Http404)
  | Some score =>
      if negb (status_eqb (status score) DRAFT) then
        (db, Redirect "my_applications" (Some (INFO, MSG_ALREADY_SUBMITTED)))
      else
        let score := set_status score SUBMITTED in
        (save_score db score,
         Redirect "my_applications"
           (Some (SUCCESS, ("Application for '" ++ job_title_of db score
                            ++ "' submitted to recruiter.")%string)))
  end.

(** [toggle_shortlist], behind [staff_member_required]. *)
Definition toggle_shortlist (db : DB) (score_id' : nat) : DB * Response :=
  match find (fun s => (score_id s =? score_id')%nat) (scores db) with
  | None => (db, Http404)
  | Some score =>
      let score := set_shortlisted score (negb (is_shortlisted score)) in
      let score :=
        set_status score (if is_shortlisted score then SHORTLISTED else REJECTED) in
      (save_score db score, Redirect "recruiter_dashboard" None)
  end.

(** [queryset.update(is_shortlisted=..., status=...)] of the admin actions. *)
Definition queryset_update (db : DB) (selected : list nat) (b : bool) (st : Status)
    : DB :=
  mkDB (jobs db) (resumes db)
       (map (fun s => if existsb (Nat.eqb (score_id s)) selected
                      then set_status (set_shortlisted s b) st else s)
            (scores db)).

Definition make_shortlisted (db : DB) (selected : list nat) : DB :=
  queryset_update db selected true SHORTLISTED.

Definition make_rejected (db : DB) (selected : list nat) : DB :=
  queryset_update db selected false REJECTED.

(** ** The life of a score *)

(** Every operation of the repository that writes the [Score] table. *)
Inductive Op : Type :=
| OpUpload (stop_words : list string) (p : Parsers) (request : Request)
| OpSubmit (user score_id' : nat)
| OpToggle (score_id' : nat)
| OpMakeShortlisted (selected : list nat)
| OpMakeRejected (selected : list nat).

Definition run_op (db : DB) (op : Op) : DB :=
  match op with
  | OpUpload stop_words p request => fst (upload_resume stop_words p db request)
  | OpSubmit user i => fst (submit_application db user i)
  | OpToggle i => fst (toggle_shortlist db i)
  | OpMakeShortlisted sel => make_shortlisted db sel
  | OpMakeRejected sel => make_rejected db sel
  end.

(** Position of a status in DRAFT, SUBMITTED, then SHORTLISTED or REJECTED. *)
Definition stage (st : Status) : nat :=
  match st with
  | DRAFT => 0
  | SUBMITTED => 1
  | SHORTLISTED | REJECTED => 2
  end.

Definition status_of (db : DB) (i : nat) : option Status :=
  option_map status (find (fun s => (score_id s =? i)%nat) (scores db)).

(** The pairs [(owner, job)] held by the scores of the store. *)
Definition pair_count (db : DB) (user : nat) (job : Job) : nat :=
  List.length (filter (score_matches db user job) (scores db)).

(** Primary keys are unique, and every score points at a stored resume. *)
Definition well_formed (db : DB) : Prop :=
  NoDup (map resume_id (resumes db)) /\
  NoDup (map score_id (scores db)) /\
  forall sc, In sc (scores db) ->
    exists r, In r (resumes db) /\ resume_id r = score_resume sc.

(** ** Sample data *)

Module Sample.

Fixpoint filler (n : nat) : string :=
  match n with
  | O => EmptyString
  | S k => String "x" (filler k)
  end.

(** Passes the resume check; the skills found are python and sql. *)
Definition text_ok : string := ("Skills: Python, SQL. " ++ filler 200)%string.

(** 150 characters, with the keyword "education". *)
Definition text_short : string := ("education" ++ filler 141)%string.

(** Passes the resume check, but no skill keyword occurs in it. *)
Definition text_no_skills : string := ("resume " ++ filler 200)%string.

(** Passes the resume check; the only skill found is "c". *)
Definition text_c_only : string := ("education " ++ filler 200)%string.

(** Plain-text uploads only: both document parsers fail. *)
Definition parsers : Parsers :=
  mkParsers (fun _ => None) (fun _ => None) (fun b => Some b).

Definition stop_words : list string :=
  ["a"; "an"; "and"; "are"; "as"; "at"; "be"; "by"; "for"; "from"; "in";
   "is"; "it"; "of"; "on"; "or"; "that"; "the"; "to"; "with"].

Definition upload (user : nat) (text : string) : Request :=
  mkRequest "POST" user (Some (mkFile "cv.txt" text)) None.

Definition backend : Job := mkJob 1 "Backend developer" "python, django, sql".

Definition no_jobs : DB := mkDB [] [] [].

Definition one_job : DB := mkDB [backend] [] [].

(** One job, one resume of user 7 and its draft score for the job. *)
Definition one_draft : DB :=
  mkDB [backend]
       [mkResume 1 7 "cv.txt" "python, sql"]
       [mkScore 1 1 1 (7093 / 100)%float "django" false DRAFT].

End Sample.

(** A history: operations applied one after the other. *)
Definition run_ops (db : DB) (ops : list Op) : DB := fold_left run_op ops db.

(** The order of [sorted], and its strict part. *)
Definition le_str (a b : string) : Prop := String.leb a b = true.
Definition lt_str (a b : string) : Prop := String.ltb a b = true.

(** The skill tokens of a text in the specification's words: split on
    commas, trim whitespace, lowercase, drop the empty tokens. *)
Definition spec_skill_tokens (text : string) : list string :=
  filter truthy (map lower (map strip (split "," text))).

(** A keyword that survives [", ".join] followed by the split, strip and
    lower of [skills_set]: no comma, no outer whitespace, lower case, not
    empty. *)
Definition plain_keyword (k : string) : bool :=
  negb (existsb (Ascii.eqb ",") (list_ascii_of_string k))
  && String.eqb (strip k) k
  && String.eqb (strip (String " " k)) k
  && String.eqb (lower k) k
  && truthy k.

(** [is_shortlisted] is set exactly on the SHORTLISTED scores of the store. *)
Definition flag_consistent (db : DB) : Prop :=
  forall sc, In sc (scores db) ->
    (is_shortlisted sc = true <-> status sc = SHORTLISTED).

(** The fields of a score that the matching loop computed. *)
Definition same_match (a b : Score) : Prop :=
  score_id a = score_id b /\ score_resume a = score_resume b
  /\ score_job a = score_job b /\ value a = value b
  /\ recommended_skills a = recommended_skills b.

(** ** The listing views *)

(** [status__in=["SUBMITTED", "SHORTLISTED", "REJECTED"]] *)
Definition submitted_or_later (st : Status) : bool :=
  match st with
  | DRAFT => false
  | SUBMITTED | SHORTLISTED | REJECTED => true
  end.

(** The [applied_job_ids] of [job_list]: for a logged-in user, the distinct
    jobs of the user's scores that are submitted or decided; for an
    anonymous visitor ([None]) the empty list. *)
Definition applied_job_ids (db : DB) (visitor : option nat) : list nat :=
  match visitor with
  | None => []
  | Some u =>
      nodup Nat.eq_dec
        (map score_job
           (filter (fun sc => match score_owner db sc with
                              | Some w => (w =? u)%nat
                              | None => false
                              end
                              && submitted_or_later (status sc))
                   (scores db)))
  end.

(** [order_by("-id")]: descending by primary key. *)
Fixpoint insert_by_id_desc (sc : Score) (l : list Score) : list Score :=
  match l with
  | [] => [sc]
  | x :: r => if (score_id x <=? score_id sc)%nat then sc :: l
              else x :: insert_by_id_desc sc r
  end.

Definition order_by_id_desc (l : list Score) : list Score :=
  fold_right insert_by_id_desc [] l.

(** The rows [my_applications] hands to its template. *)
Definition my_applications (db : DB) (u : nat) : list Score :=
  order_by_id_desc
    (filter (fun sc => match score_owner db sc with
                       | Some w => (w =? u)%nat
                       | None => false
                       end) (scores db)).

(** The order of [order_by_id_desc]. *)
Definition id_ge (a b : Score) : Prop := score_id b <= score_id a.

(** ** Registration *)

Record User : Type := mkUser {
  user_id : nat;
  user_username : string;
  user_email : string;
  user_password : string
}.

Record Applicant : Type := mkApplicant {
  applicant_user : nat;
  applicant_full_name : string;
  applicant_phone : string
}.

Record Accounts : Type := mkAccounts {
  users : list User;
  applicants : list Applicant
}.

(** The fields of the registration form; a field that was not sent is
    [None]. *)
Record RegisterForm : Type := mkRegisterForm {
  form_method : string;
  form_full_name : option string;
  form_email : option string;
  form_phone : option string;
  form_password1 : option string;
  form_password2 : option string
}.

Definition MSG_ALL_REQUIRED : string := "All fields are required.".
Definition MSG_PASSWORD_MISMATCH : string := "Passwords do not match.".
Definition MSG_EMAIL_TAKEN : string :=
  "User with this email already exists. Please login with your credentials.".
Definition MSG_PHONE_TAKEN : string :=
  "This mobile number is already registered. Please login with your credentials.".
Definition MSG_REGISTERED : string :=
  "Registration successful. You can now login with your email and password.".

(** [request.POST.get(name, "")] *)
Definition get_or_empty (field : option string) : string :=
  match field with Some s => s | None => "" end.

(** Truth value of [request.POST.get(name)]: absent and empty are false. *)
Definition given (field : option string) : bool :=
  match field with Some s => truthy s | None => false end.

Definition option_string_eqb (a b : option string) : bool :=
  match a, b with
  | Some x, Some y => String.eqb x y
  | None, None => true
  | _, _ => false
  end.

(** What [register_view] hands back: the message it queued, if any, and the
    page it renders or redirects to. *)
Definition Answer : Type := (option (Level * string) * Response)%type.

(** [register_view]. [make_password] is Django's password hasher, which
    [create_user] applies before storing. *)
Definition register_view (make_password : string -> string) (acc : Accounts)
    (form : RegisterForm) : Accounts * Answer :=
  if String.eqb (form_method form) "POST" then
    let full_name := strip (get_or_empty (form_full_name form)) in
    let email := lower (strip (get_or_empty (form_email form))) in
    let phone := strip (get_or_empty (form_phone form)) in
    let password1 := form_password1 form in
    let password2 := form_password2 form in
    if negb (truthy full_name) || negb (truthy email) || negb (truthy phone)
       || negb (given password1) || negb (given password2) then
      (acc, (Some (ERROR, MSG_ALL_REQUIRED), Render "register.html"))
    else if negb (option_string_eqb password1 password2) then
      (acc, (Some (ERROR, MSG_PASSWORD_MISMATCH), Render "register.html"))
    else if existsb (fun us => String.eqb (user_username us) email) (users acc) then
      (acc, (Some (ERROR, MSG_EMAIL_TAKEN), Redirect "login" None))
    else if existsb (fun ap => String.eqb (applicant_phone ap) phone)
              (applicants acc) then
      (acc, (Some (ERROR, MSG_PHONE_TAKEN), Redirect "login" None))
    else
      let user := mkUser (next_id (map user_id (users acc))) email email
                         (make_password (get_or_empty password1)) in
      let applicant := mkApplicant (user_id user) full_name phone in
      (mkAccounts (users acc ++ [user]) (applicants acc ++ [applicant]),
       (Some (SUCCESS, MSG_REGISTERED), Redirect "login" None))
  else (acc, (None, Render "register.html")).

Module SampleAccounts.

Definition hasher (raw : string) : string := ("hashed:" ++ raw)%string.

Definition nobody : Accounts := mkAccounts [] [].

Definition form : RegisterForm :=
  mkRegisterForm "POST" (Some " Ada Lovelace ") (Some " Ada@Example.COM ")
                 (Some "0123456789") (Some "s3cret") (Some "s3cret").

End SampleAccounts.

(** A job table whose first job names only one-letter skills. *)
Module SampleTwoJobs.

Definition store : DB :=
  mkDB [mkJob 1 "Systems programmer" "C, R";
        mkJob 2 "Backend developer" "python, django, sql"] [] [].

(** The first upload, by user 7: the only skill found is "c". *)
Definition first_upload : Request := Sample.upload 7 Sample.text_c_only.

(** The store the first upload leaves behind. *)
Definition after_first : DB :=
  fst (upload_resume Sample.stop_words Sample.parsers store first_upload).

(** The second upload, by the same user: python and sql are found. *)
Definition second_upload : Request := Sample.upload 7 Sample.text_ok.

End SampleTwoJobs.

(** * Properties *)

(** ** Rows and keys *)

Section StoreFacts.

Implicit Types (db : DB) (sc : Score) (l : list Score).

Lemma find_by_id_key l i sc :
  find (fun s => (score_id s =? i)%nat) l = Some sc -> score_id sc = i.
Proof.
  intros H. apply find_some in H. destruct H as [_ H].
  now apply Nat.eqb_eq in H.
Qed.

(** Saving a row under key [i] makes it the row found under [i]. *)
Lemma find_after_save l i old new :
  find (fun s => (score_id s =? i)%nat) l = Some old ->
  score_id new = i ->
  find (fun s => (score_id s =? i)%nat)
       (map (fun s => if (score_id s =? score_id new)%nat then new else s) l)
  = Some new.
Proof.
  intros Hfind Hkey. subst i.
  induction l as [|a l IH]; simpl in *; [discriminate|].
  destruct (score_id a =? score_id new)%nat eqn:Ea.
  - simpl. now rewrite Nat.eqb_refl.
  - simpl. rewrite Ea. auto.
Qed.

Lemma find_app_some (A : Type) (f : A -> bool) (l1 l2 : list A) (x : A) :
  find f l1 = Some x -> find f (l1 ++ l2) = Some x.
Proof.
  induction l1 as [|a l1 IH]; simpl; [discriminate|].
  destruct (f a); auto.
Qed.

End StoreFacts.

(** ** The shortlist toggle *)

(** C10. After [toggle_shortlist] on a stored score, whatever its status was
    (DRAFT included), the stored flag is the negation of the old one and the
    status is SHORTLISTED exactly when the flag is set and REJECTED exactly
    when it is not; the status is never DRAFT or SUBMITTED afterwards. *)
Theorem toggle_status_follows_flag (db : DB) (i : nat) (old : Score) :
  find (fun s => (score_id s =? i)%nat) (scores db) = Some old ->
  exists new,
    find (fun s => (score_id s =? i)%nat) (scores (fst (toggle_shortlist db i)))
      = Some new
    /\ is_shortlisted new = negb (is_shortlisted old)
    /\ (status new = SHORTLISTED <-> is_shortlisted new = true)
    /\ (status new = REJECTED <-> is_shortlisted new = false)
    /\ status new <> DRAFT /\ status new <> SUBMITTED.
Proof.
  intros Hfind. unfold toggle_shortlist. rewrite Hfind.
  pose proof (find_by_id_key _ _ _ Hfind) as Hkey.
  set (new := set_status (set_shortlisted old (negb (is_shortlisted old)))
                (if negb (is_shortlisted old) then SHORTLISTED else REJECTED)).
  exists new. split.
  - exact (find_after_save (scores db) i old new Hfind Hkey).
  - subst new. simpl. destruct (is_shortlisted old); simpl;
      repeat split; intros; try discriminate; reflexivity.
Qed.

(** ** The draft-score loop only appends *)

Lemma create_draft_scores_appends stop_words user resume skills_text js :
  forall db flag db' e,
    create_draft_scores stop_words user resume skills_text js db flag = (db', e) ->
    jobs db' = jobs db /\ resumes db' = resumes db /\
    exists extra, scores db' = scores db ++ extra /\
                  Forall (fun sc => status sc = DRAFT /\ is_shortlisted sc = false
                                    /\ score_resume sc = resume_id resume) extra.
Proof.
  induction js as [|job rest IH]; intros db flag db' e H; simpl in H.
  - inversion H; subst. repeat split. exists []. now rewrite app_nil_r.
  - destruct (already_exists db user job).
    + eauto.
    + destruct (Scorer.score_value stop_words skills_text (required_skills job))
        as [v|].
      * apply IH in H. destruct H as (Hj & Hr & extra & Hs & Hall).
        simpl in *. repeat split; auto.
        eexists (_ :: extra). rewrite Hs, <- app_assoc. split; [reflexivity|].
        constructor; auto.
      * inversion H; subst. repeat split. exists []. now rewrite app_nil_r.
Qed.

Lemma upload_resume_appends stop_words p db request :
  exists extra, scores (fst (upload_resume stop_words p db request))
                = scores db ++ extra.
Proof.
  unfold upload_resume.
  destruct (posted_file request) as [file|]; [|exists []; simpl; now rewrite app_nil_r].
  destruct (negb (looks_like_resume _)); [exists []; simpl; now rewrite app_nil_r|].
  destruct (negb (truthy _)); [exists []; simpl; now rewrite app_nil_r|].
  unfold create_resume.
  match goal with
  | |- context [create_draft_scores ?a ?b ?c ?d ?e ?f ?g] =>
      destruct (create_draft_scores a b c d e f g) as [db2 e2] eqn:Hloop
  end.
  apply create_draft_scores_appends in Hloop.
  destruct Hloop as (_ & _ & extra & Hs & _). simpl in Hs.
  exists extra. destruct e2 as [[|]|]; simpl; exact Hs.
Qed.

(** ** Status changes *)

Lemma find_map_same_key (g : Score -> Score) (l : list Score) (i : nat) :
  (forall s, score_id (g s) = score_id s) ->
  find (fun s => (score_id s =? i)%nat) (map g l)
  = option_map g (find (fun s => (score_id s =? i)%nat) l).
Proof.
  intros Hg. induction l as [|a l IH]; simpl; [reflexivity|].
  rewrite Hg. destruct (score_id a =? i)%nat; [reflexivity | exact IH].
Qed.

Lemma unique_key_same_row (l : list Score) (a b : Score) :
  NoDup (map score_id l) -> In a l -> In b l -> score_id a = score_id b -> a = b.
Proof.
  induction l as [|x l IH]; simpl; intros Hnd Ha Hb Hk; [contradiction|].
  inversion Hnd as [|? ? Hnotin Hnd']; subst.
  destruct Ha as [Ha|Ha], Hb as [Hb|Hb]; subst; auto.
  - exfalso. apply Hnotin. rewrite Hk. now apply in_map.
  - exfalso. apply Hnotin. rewrite <- Hk. now apply in_map.
Qed.

(** What one operation can do to the status of a stored score. *)
Lemma run_op_status (db : DB) (op : Op) (i : nat) (st : Status) :
  NoDup (map score_id (scores db)) ->
  status_of db i = Some st ->
  exists st', status_of (run_op db op) i = Some st' /\
    (st' = st \/ (st = DRAFT /\ st' = SUBMITTED) \/ st' = SHORTLISTED \/ st' = REJECTED).
Proof.
  intros Hnd Hst. unfold status_of in *.
  destruct (find (fun s => (score_id s =? i)%nat) (scores db)) as [s0|] eqn:Hfind;
    [|discriminate].
  simpl in Hst. injection Hst as Hst.
  destruct op as [sw p request | user j | j | sel | sel]; simpl.
  - destruct (upload_resume_appends sw p db request) as [extra ->].
    rewrite (find_app_some _ _ _ _ _ Hfind). simpl. eauto.
  - unfold submit_application.
    destruct (find _ (scores db)) as [score|] eqn:Hsub at 1;
      [|simpl; rewrite Hfind; simpl; eauto].
    destruct (negb (status_eqb (status score) DRAFT)) eqn:Hd;
      [simpl; rewrite Hfind; simpl; eauto|].
    simpl. rewrite find_map_same_key.
    2:{ intros s. destruct (score_id s =? score_id score)%nat eqn:E; simpl;
          [symmetry; now apply Nat.eqb_eq | reflexivity]. }
    rewrite Hfind. simpl.
    destruct (score_id s0 =? score_id score)%nat eqn:E; simpl; [|eauto].
    apply Nat.eqb_eq in E. apply find_some in Hsub, Hfind.
    assert (s0 = score) by (eapply unique_key_same_row; eauto; tauto).
    subst s0. exists SUBMITTED. split; [reflexivity|].
    right; left. split; [|reflexivity]. rewrite <- Hst.
    destruct (status score); simpl in Hd; try discriminate; reflexivity.
  - unfold toggle_shortlist.
    destruct (find _ (scores db)) as [score|] eqn:Htog at 1;
      [|simpl; rewrite Hfind; simpl; eauto].
    simpl. rewrite find_map_same_key.
    2:{ intros s. destruct (score_id s =? score_id score)%nat eqn:E; simpl;
          [symmetry; now apply Nat.eqb_eq | reflexivity]. }
    rewrite Hfind. simpl.
    destruct (score_id s0 =? score_id score)%nat; simpl; [|eauto].
    destruct (negb (is_shortlisted score)); eexists; split; eauto.
  - rewrite find_map_same_key.
    2:{ intros s. now destruct (existsb _ sel). }
    rewrite Hfind. simpl. destruct (existsb _ sel); simpl; eexists; split; eauto.
  - rewrite find_map_same_key.
    2:{ intros s. now destruct (existsb _ sel). }
    rewrite Hfind. simpl. destruct (existsb _ sel); simpl; eexists; split; eauto.
Qed.

Lemma next_id_above (ids : list nat) (i : nat) : In i ids -> i < next_id ids.
Proof.
  unfold next_id. induction ids as [|a ids IH]; simpl; [contradiction|].
  intros [->|H]; [lia|]. apply IH in H. lia.
Qed.

Lemma next_id_fresh (ids : list nat) : ~ In (next_id ids) ids.
Proof. intros H. apply next_id_above in H. lia. Qed.

Lemma create_draft_scores_keys stop_words user resume skills_text js :
  forall db flag db' e,
    create_draft_scores stop_words user resume skills_text js db flag = (db', e) ->
    NoDup (map score_id (scores db)) -> NoDup (map score_id (scores db')).
Proof.
  induction js as [|job rest IH]; intros db flag db' e H Hnd; simpl in H.
  - now inversion H; subst.
  - destruct (already_exists db user job); [eauto|].
    destruct (Scorer.score_value stop_words skills_text (required_skills job)).
    + eapply IH; [exact H|]. simpl. rewrite map_app. simpl.
      apply NoDup_app_remove_l with (l := []). simpl.
      apply Permutation_NoDup with (l := next_id (map score_id (scores db))
                                          :: map score_id (scores db)).
      * apply Permutation_cons_append.
      * constructor; [apply next_id_fresh | exact Hnd].
    + now inversion H; subst.
Qed.

Lemma run_op_keys (db : DB) (op : Op) :
  NoDup (map score_id (scores db)) -> NoDup (map score_id (scores (run_op db op))).
Proof.
  intros Hnd.
  assert (Hmap : forall g : Score -> Score,
             (forall s, score_id (g s) = score_id s) ->
             map score_id (map g (scores db)) = map score_id (scores db)).
  { intros g Hg. rewrite map_map. apply map_ext. exact Hg. }
  destruct op as [sw p request | user j | j | sel | sel]; simpl.
  - unfold upload_resume.
    destruct (posted_file request); [|exact Hnd].
    destruct (negb (looks_like_resume _)); [exact Hnd|].
    destruct (negb (truthy _)); [exact Hnd|].
    unfold create_resume.
    match goal with
    | |- context [create_draft_scores ?a ?b ?c ?d ?e ?f ?g] =>
        destruct (create_draft_scores a b c d e f g) as [db2 e2] eqn:Hloop
    end.
    apply create_draft_scores_keys in Hloop; [|exact Hnd].
    destruct e2 as [[|]|]; exact Hloop.
  - unfold submit_application.
    destruct (find _ (scores db)) as [score|]; [|exact Hnd].
    destruct (negb _); [exact Hnd|]. simpl. rewrite Hmap; [exact Hnd|].
    intros s. destruct (score_id s =? score_id score)%nat eqn:E; simpl;
      [symmetry; now apply Nat.eqb_eq | reflexivity].
  - unfold toggle_shortlist.
    destruct (find _ (scores db)) as [score|]; [|exact Hnd].
    simpl. rewrite Hmap; [exact Hnd|].
    intros s. destruct (score_id s =? score_id score)%nat eqn:E; simpl;
      [symmetry; now apply Nat.eqb_eq | reflexivity].
  - rewrite Hmap; [exact Hnd|]. intros s. now destruct (existsb _ sel).
  - rewrite Hmap; [exact Hnd|]. intros s. now destruct (existsb _ sel).
Qed.

(** C2, as the code has it. Along any history of uploads, submissions,
    toggles and admin actions, the status of a stored score never moves back
    in the order DRAFT, SUBMITTED, then SHORTLISTED or REJECTED; a score
    that is SUBMITTED at the end was DRAFT or SUBMITTED at the start. *)
Theorem status_never_moves_back (ops : list Op) :
  forall (db : DB) (i : nat) (st : Status),
    NoDup (map score_id (scores db)) ->
    status_of db i = Some st ->
    exists st', status_of (run_ops db ops) i = Some st'
                /\ stage st <= stage st'
                /\ (st' = SUBMITTED -> st = DRAFT \/ st = SUBMITTED).
Proof.
  induction ops as [|op ops IH]; intros db i st Hnd Hst; simpl.
  - exists st. repeat split; auto.
  - destruct (run_op_status db op i st Hnd Hst) as (st1 & H1 & Hcase).
    destruct (IH (run_op db op) i st1 (run_op_keys db op Hnd) H1)
      as (st2 & H2 & Hle & Hsub).
    exists st2. split; [exact H2|].
    destruct Hcase as [->|[[-> ->]|[->| ->]]]; simpl in *.
    + split; auto.
    + split; [lia|]. intros _. now left.
    + split; [destruct st; simpl; lia|]. intros ->. simpl in Hle. lia.
    + split; [destruct st; simpl; lia|]. intros ->. simpl in Hle. lia.
Qed.

Lemma status_never_moves_back_witness :
  exists st', status_of (run_ops Sample.one_draft [OpSubmit 7 1; OpToggle 1]) 1
              = Some st'
              /\ stage DRAFT <= stage st'
              /\ (st' = SUBMITTED -> DRAFT = DRAFT \/ DRAFT = SUBMITTED).
Proof.
  apply (status_never_moves_back [OpSubmit 7 1; OpToggle 1] Sample.one_draft 1 DRAFT).
  - simpl. repeat constructor. intros [].
  - reflexivity.
Defined.

(** C2, as the specification states it, fails: the toggle takes a DRAFT score
    straight to SHORTLISTED, so SHORTLISTED is reached without SUBMITTED. *)
Lemma shortlisted_without_submission :
  ~ (forall (db : DB) (op : Op) (i : nat) (st st' : Status),
        NoDup (map score_id (scores db)) ->
        status_of db i = Some st ->
        status_of (run_op db op) i = Some st' ->
        st' = SHORTLISTED \/ st' = REJECTED ->
        st <> DRAFT).
Proof.
  intros H.
  apply (H Sample.one_draft (OpToggle 1) 1 DRAFT SHORTLISTED).
  - simpl. repeat constructor. intros [].
  - reflexivity.
  - reflexivity.
  - now left.
  - reflexivity.
Qed.

Lemma toggle_status_follows_flag_witness :
  exists new,
    find (fun s => (score_id s =? 1)%nat)
         (scores (fst (toggle_shortlist Sample.one_draft 1))) = Some new
    /\ is_shortlisted new = negb false
    /\ (status new = SHORTLISTED <-> is_shortlisted new = true)
    /\ (status new = REJECTED <-> is_shortlisted new = false)
    /\ status new <> DRAFT /\ status new <> SUBMITTED.
Proof.
  apply (toggle_status_follows_flag Sample.one_draft 1
           (mkScore 1 1 1 (7093 / 100)%float "django" false DRAFT)).
  reflexivity.
Defined.

(** ** Sorting strings *)

Section Sorting.

Lemma ascii_compare_refl (c : ascii) : Ascii.compare c c = Eq.
Proof. unfold Ascii.compare. apply N.compare_refl. Qed.

Lemma string_compare_refl (s : string) : String.compare s s = Eq.
Proof. induction s as [|c s IH]; simpl; [reflexivity|]. now rewrite ascii_compare_refl. Qed.

Lemma le_str_refl (a : string) : le_str a a.
Proof. unfold le_str, String.leb. now rewrite string_compare_refl. Qed.

Lemma le_str_trans (a b c : string) : le_str a b -> le_str b c -> le_str a c.
Proof.
  unfold le_str, String.leb. revert b c.
  induction a as [|x a IH]; intros [|y b] [|z c]; simpl; try easy.
  unfold Ascii.compare.
  destruct (N.compare_spec (N_of_ascii x) (N_of_ascii y)) as [Exy|Lxy|Gxy];
    destruct (N.compare_spec (N_of_ascii y) (N_of_ascii z)) as [Eyz|Lyz|Gyz];
    destruct (N.compare_spec (N_of_ascii x) (N_of_ascii z)) as [Exz|Lxz|Gxz];
    try easy; try lia.
  apply IH.
Qed.

Lemma lt_str_iff (a b : string) : lt_str a b <-> le_str a b /\ a <> b.
Proof.
  unfold lt_str, le_str, String.ltb, String.leb. split.
  - intros H. destruct (String.compare a b) eqn:E; try discriminate.
    split; [reflexivity|]. intros ->. rewrite string_compare_refl in E. discriminate.
  - intros [H Hne]. destruct (String.compare a b) eqn:E; try discriminate; auto.
    apply String.compare_eq_iff in E. contradiction.
Qed.

Lemma insert_sorted_perm (x : string) (l : list string) :
  Permutation (x :: l) (insert_sorted x l).
Proof.
  induction l as [|y l IH]; simpl; [reflexivity|].
  destruct (String.leb x y); [reflexivity|].
  rewrite perm_swap. now constructor.
Qed.

Lemma sorted_perm (l : list string) : Permutation l (sorted l).
Proof.
  induction l as [|x l IH]; simpl; [constructor|].
  rewrite <- insert_sorted_perm. now constructor.
Qed.

Lemma sorted_In (l : list string) (x : string) : In x (sorted l) <-> In x l.
Proof.
  split; apply Permutation_in; [symmetry|]; apply sorted_perm.
Qed.

Lemma insert_sorted_ordered (x : string) (l : list string) :
  StronglySorted le_str l -> StronglySorted le_str (insert_sorted x l).
Proof.
  induction l as [|y l IH]; simpl; intros Hs.
  - repeat constructor.
  - apply StronglySorted_inv in Hs. destruct Hs as [Hs Hall].
    destruct (String.leb x y) eqn:E.
    + constructor; [constructor; assumption|].
      constructor; [exact E|].
      eapply Forall_impl; [|exact Hall]. intros z Hz.
      eapply le_str_trans; [exact E | exact Hz].
    + constructor; [now apply IH|].
      apply (Permutation_Forall (insert_sorted_perm x l)).
      constructor; [|exact Hall].
      destruct (String.leb_total x y) as [H|H]; [congruence | exact H].
Qed.

Lemma sorted_ordered (l : list string) : StronglySorted le_str (sorted l).
Proof.
  induction l as [|x l IH]; simpl; [constructor|].
  now apply insert_sorted_ordered.
Qed.

(** An ordered list is determined by its elements. *)
Lemma ordered_perm_eq (l1 l2 : list string) :
  StronglySorted le_str l1 -> StronglySorted le_str l2 ->
  Permutation l1 l2 -> l1 = l2.
Proof.
  revert l2. induction l1 as [|a l1 IH]; intros l2 H1 H2 Hp.
  - apply Permutation_nil in Hp. now subst.
  - destruct l2 as [|b l2]; [symmetry in Hp; now apply Permutation_nil in Hp|].
    apply StronglySorted_inv in H1, H2.
    destruct H1 as [H1 Ha], H2 as [H2 Hb].
    assert (a = b) as ->.
    { assert (Hab : le_str a b).
      { assert (Hin : In b (a :: l1))
          by (eapply Permutation_in; [symmetry; exact Hp | now left]).
        destruct Hin as [->|Hin]; [apply le_str_refl|].
        rewrite Forall_forall in Ha. now apply Ha. }
      assert (Hba : le_str b a).
      { assert (Hin : In a (b :: l2))
          by (eapply Permutation_in; [exact Hp | now left]).
        destruct Hin as [->|Hin]; [apply le_str_refl|].
        rewrite Forall_forall in Hb. now apply Hb. }
      now apply String.leb_antisym. }
    f_equal. apply IH; auto. now apply Permutation_cons_inv in Hp.
Qed.

(** [sorted] does not depend on the order in which it receives its input. *)
Lemma sorted_of_perm (l l' : list string) :
  Permutation l l' -> sorted l = sorted l'.
Proof.
  intros Hp. apply ordered_perm_eq; try apply sorted_ordered.
  rewrite <- (sorted_perm l), <- (sorted_perm l'). exact Hp.
Qed.

(** Sorting distinct strings gives a strictly increasing list. *)
Lemma sorted_strict (l : list string) :
  NoDup l -> StronglySorted lt_str (sorted l).
Proof.
  intros Hnd.
  assert (Hnd' : NoDup (sorted l)) by (eapply Permutation_NoDup; [apply sorted_perm | exact Hnd]).
  pose proof (sorted_ordered l) as Hs.
  induction Hs as [|a r Hs IH Hall]; [constructor|].
  inversion Hnd' as [|? ? Hnotin Hnd'']; subst.
  constructor; [now apply IH|].
  rewrite Forall_forall in *. intros z Hz. apply lt_str_iff.
  split; [now apply Hall|]. intros ->. contradiction.
Qed.

End Sorting.

(** ** Substrings *)

Section Substrings.

Lemma prefix_spec (p s : string) :
  String.prefix p s = true <-> exists b, s = (p ++ b)%string.
Proof.
  revert s. induction p as [|c p IH]; intros [|d s]; simpl.
  - split; [intros _; now exists EmptyString | reflexivity].
  - split; [intros _; now exists (String d s) | reflexivity].
  - split; [discriminate | intros [b Hb]; discriminate].
  - destruct (ascii_dec c d) as [->|Hne].
    + rewrite IH. split; intros [b Hb]; exists b; congruence.
    + split; [discriminate|]. intros [b Hb]. congruence.
Qed.

(** [sub in s] holds exactly when [s] splits around a copy of [sub]. *)
Lemma contains_spec (sub s : string) :
  contains sub s = true <-> exists a b, s = (a ++ sub ++ b)%string.
Proof.
  induction s as [|d s IH]; cbn [contains].
  - rewrite orb_false_r, prefix_spec. split.
    + intros [b Hb]. now exists EmptyString, b.
    + intros [a [b Hb]]. destruct a; simpl in Hb; [now exists b | discriminate].
  - rewrite orb_true_iff, prefix_spec, IH. split.
    + intros [[b Hb]|[a [b Hb]]].
      * now exists EmptyString, b.
      * exists (String d a), b. simpl. congruence.
    + intros [a [b Hb]]. destruct a as [|e a]; simpl in Hb.
      * left. now exists b.
      * right. exists a, b. congruence.
Qed.

Lemma append_assoc (a b c : string) : ((a ++ b) ++ c = a ++ (b ++ c))%string.
Proof. induction a as [|x a IH]; simpl; [reflexivity | now rewrite IH]. Qed.

(** A part of a part is a part. *)
Lemma contains_trans (a b s : string) :
  contains a b = true -> contains b s = true -> contains a s = true.
Proof.
  rewrite !contains_spec. intros (p & q & ->) (p' & q' & ->).
  exists (p' ++ p)%string, (q ++ q')%string. now rewrite !append_assoc.
Qed.

Lemma contains_nonempty (sub s : string) :
  contains sub s = true -> sub <> EmptyString -> s <> EmptyString.
Proof.
  rewrite contains_spec. intros (a & b & ->) Hsub H.
  destruct a; simpl in H; [|discriminate]. destruct sub; [now apply Hsub | discriminate].
Qed.

(** An element of a joined list is a part of the joined string. *)
Lemma contains_join (sep x : string) (l : list string) :
  In x l -> contains x (join sep l) = true.
Proof.
  unfold join. rewrite contains_spec.
  induction l as [|y l IH]; [contradiction|].
  intros [->|Hin].
  - destruct l as [|z l]; simpl.
    + exists EmptyString, EmptyString. simpl.
      clear. induction x as [|c x IHx]; simpl; [reflexivity | now rewrite <- IHx].
    + now exists EmptyString, (sep ++ String.concat sep (z :: l))%string.
  - destruct (IH Hin) as (a & b & Hab). destruct l as [|z l]; [contradiction|].
    exists (y ++ sep ++ a)%string, b.
    change (String.concat sep (y :: z :: l))
      with (y ++ sep ++ String.concat sep (z :: l))%string.
    rewrite Hab. now rewrite !append_assoc.
Qed.

(** A one-character pattern is found when the character occurs. *)
Lemma contains_char (c : ascii) (s : string) :
  In c (list_ascii_of_string s) -> contains (String c EmptyString) s = true.
Proof.
  induction s as [|d s IH]; cbn [contains list_ascii_of_string]; [contradiction|].
  intros [->|Hin].
  - simpl. destruct (ascii_dec c c); [now destruct s | contradiction].
  - rewrite (IH Hin). apply orb_true_r.
Qed.

Lemma lower_chars (s : string) :
  list_ascii_of_string (lower s) = map lower_char (list_ascii_of_string s).
Proof. induction s as [|c s IH]; simpl; [reflexivity | now rewrite IH]. Qed.

Lemma lower_char_idem (c : ascii) : lower_char (lower_char c) = lower_char c.
Proof.
  destruct c as [[] [] [] [] [] [] [] []]; reflexivity.
Qed.

Lemma lower_idem (s : string) : lower (lower s) = lower s.
Proof.
  induction s as [|c s IH]; simpl; [reflexivity|].
  now rewrite lower_char_idem, IH.
Qed.

Lemma lower_empty (s : string) : truthy (lower s) = truthy s.
Proof. now destruct s. Qed.

End Substrings.

(** ** Stripping keeps what is not whitespace *)

Section Strip.

Lemma lstrip_keeps (c : ascii) (s : string) :
  is_space c = false -> In c (list_ascii_of_string s) ->
  In c (list_ascii_of_string (lstrip s)).
Proof.
  intros Hc. induction s as [|d s IH]; simpl; [contradiction|].
  intros Hin. destruct (is_space d) eqn:Hd.
  - destruct Hin as [->|Hin]; [congruence | auto].
  - exact Hin.
Qed.

Lemma rstrip_keeps (c : ascii) (s : string) :
  is_space c = false -> In c (list_ascii_of_string s) ->
  In c (list_ascii_of_string (rstrip s)).
Proof.
  intros Hc. induction s as [|d s IH]; simpl; [contradiction|].
  intros [->|Hin].
  - destruct (rstrip s); [rewrite Hc|]; now left.
  - specialize (IH Hin). destruct (rstrip s) as [|e r]; [contradiction|].
    now right.
Qed.

Lemma strip_keeps (c : ascii) (s : string) :
  is_space c = false -> In c (list_ascii_of_string s) ->
  In c (list_ascii_of_string (strip s)).
Proof.
  intros Hc Hin. unfold strip. now apply rstrip_keeps, lstrip_keeps.
Qed.

End Strip.

(** ** The skill extractor *)

Lemma found_skills_In (vocab : list string) (text k : string) :
  In k (found_skills vocab text)
  <-> In k vocab /\ contains k (lower text) = true.
Proof. exact (filter_In (fun skill => contains skill (lower text)) k vocab). Qed.

(** The extractor's output is fixed by the set of keywords that match. *)
Lemma extract_skills_with_determined (vocab vocab' : list string) (t1 t2 : string) :
  Permutation vocab vocab' ->
  (forall k, In k vocab -> contains k (lower t1) = contains k (lower t2)) ->
  extract_skills_with vocab t1 = extract_skills_with vocab' t2.
Proof.
  intros Hp Hsame. unfold extract_skills_with. f_equal.
  apply sorted_of_perm. unfold set_of.
  apply NoDup_Permutation; try apply NoDup_nodup.
  intros k. rewrite !nodup_In, !found_skills_In. split.
  - intros [Hin Hc]. split; [eapply Permutation_in; eauto|].
    now rewrite <- (Hsame k Hin).
  - intros [Hin Hc].
    assert (Hin' : In k vocab) by (eapply Permutation_in; [symmetry|]; eauto).
    split; [exact Hin'|]. now rewrite (Hsame k Hin').
Qed.

Lemma extract_skills_with_listing (vocab : list string) (text : string) :
  exists L, extract_skills_with vocab text = join ", " L
            /\ StronglySorted lt_str L
            /\ forall k, In k L <-> In k vocab /\ contains k (lower text) = true.
Proof.
  exists (sorted (set_of (found_skills vocab text))).
  split; [reflexivity|]. split.
  - apply sorted_strict. apply NoDup_nodup.
  - intros k. unfold set_of. now rewrite sorted_In, nodup_In, found_skills_In.
Qed.

(** Changing the case of the input does not change the output. *)
Lemma extract_skills_case (text : string) :
  extract_skills_from_text (lower text) = extract_skills_from_text text.
Proof.
  apply extract_skills_with_determined; [reflexivity|].
  intros k _. now rewrite lower_idem.
Qed.

(** C7. The output of the skill extractor is the ", "-joined, strictly
    increasing (so sorted and duplicate-free) list of the vocabulary keywords
    that occur in the lowered text. Hence two inputs that match the same
    keywords give the same string, whatever the order or case in which the
    keywords occur and whatever the order of the vocabulary. *)
Theorem extract_skills_canonical (vocab vocab' : list string) (t1 t2 : string) :
  Permutation vocab vocab' ->
  (forall k, In k vocab -> contains k (lower t1) = contains k (lower t2)) ->
  extract_skills_with vocab t1 = extract_skills_with vocab' t2
  /\ exists L, extract_skills_with vocab t1 = join ", " L
               /\ StronglySorted lt_str L
               /\ forall k, In k L <-> In k vocab /\ contains k (lower t1) = true.
Proof.
  intros Hp Hsame. split.
  - now apply extract_skills_with_determined.
  - apply extract_skills_with_listing.
Qed.

Lemma extract_skills_canonical_witness :
  extract_skills_with SKILL_KEYWORDS "Python and SQL"
  = extract_skills_with (rev SKILL_KEYWORDS) "sql; PYTHON"
  /\ exists L, extract_skills_with SKILL_KEYWORDS "Python and SQL" = join ", " L
               /\ StronglySorted lt_str L
               /\ forall k, In k L <-> In k SKILL_KEYWORDS
                                       /\ contains k (lower "Python and SQL") = true.
Proof.
  apply (extract_skills_canonical SKILL_KEYWORDS (rev SKILL_KEYWORDS)
           "Python and SQL" "sql; PYTHON").
  - apply Permutation_rev.
  - intros k Hk. unfold SKILL_KEYWORDS in Hk. simpl in Hk.
    repeat (destruct Hk as [<-|Hk]; [vm_compute; reflexivity|]).
    contradiction.
Defined.

Lemma skill_c_in_vocabulary : In "c" SKILL_KEYWORDS.
Proof. unfold SKILL_KEYWORDS. simpl. tauto. Qed.

Lemma skill_java_in_vocabulary :
  In "java" SKILL_KEYWORDS /\ In "javascript" SKILL_KEYWORDS.
Proof. unfold SKILL_KEYWORDS. simpl. tauto. Qed.

(** The letter c, in either case, makes the lowered text contain "c". *)
Lemma letter_c_matches (text : string) :
  In "c"%char (list_ascii_of_string text) \/ In "C"%char (list_ascii_of_string text) ->
  contains "c" (lower text) = true.
Proof.
  intros H. apply contains_char. rewrite lower_chars.
  destruct H as [H|H]; apply (in_map lower_char) in H; exact H.
Qed.

Lemma matched_keyword_reported (text k : string) :
  In k SKILL_KEYWORDS -> k <> EmptyString -> contains k (lower text) = true ->
  truthy (extract_skills_from_text text) = true
  /\ contains k (extract_skills_from_text text) = true.
Proof.
  intros Hk Hne Hc.
  destruct (extract_skills_with_listing SKILL_KEYWORDS text) as (L & HL & _ & Hin).
  unfold extract_skills_from_text. rewrite HL.
  assert (Hc' : contains k (join ", " L) = true)
    by (apply contains_join, Hin; auto).
  split; [|exact Hc'].
  pose proof (contains_nonempty _ _ Hc' Hne) as Hout.
  destruct (join ", " L); [contradiction | reflexivity].
Qed.

Lemma messages_differ : MSG_NOT_A_RESUME <> MSG_NO_SKILLS.
Proof. intros H. vm_compute in H. discriminate H. Qed.

(** C9. A text in which the letter c occurs, in either case, always yields a
    non-empty skill string that lists the keyword "c"; a text containing
    "javascript" is also reported as "java"; and an upload whose extracted
    text contains the letter c never ends in the no-skills rejection. *)
Theorem letter_c_always_a_skill (text : string) :
  In "c"%char (list_ascii_of_string text) \/ In "C"%char (list_ascii_of_string text) ->
  extract_skills_from_text text <> EmptyString
  /\ contains "c" (extract_skills_from_text text) = true
  /\ (exists L, extract_skills_from_text text = join ", " L /\ In "c" L
                /\ (contains "javascript" (lower text) = true ->
                    In "java" L /\ In "javascript" L))
  /\ (forall stop_words p db request file,
         posted_file request = Some file ->
         extract_text_from_resume p file = text ->
         snd (upload_resume stop_words p db request)
         <> Redirect "upload_resume" (Some (ERROR, MSG_NO_SKILLS))).
Proof.
  intros Hc.
  assert (Hmatch : forall t,
             In "c"%char (list_ascii_of_string t) \/ In "C"%char (list_ascii_of_string t) ->
             truthy (extract_skills_from_text t) = true
             /\ contains "c" (extract_skills_from_text t) = true).
  { intros t Ht. apply matched_keyword_reported;
      [apply skill_c_in_vocabulary | discriminate | now apply letter_c_matches]. }
  destruct (Hmatch text Hc) as [Htruthy Hcontains].
  split; [intros E; rewrite E in Htruthy; discriminate|].
  split; [exact Hcontains|]. split.
  - destruct (extract_skills_with_listing SKILL_KEYWORDS text) as (L & HL & _ & Hin).
    exists L. split; [exact HL|]. split.
    + apply Hin. split; [apply skill_c_in_vocabulary | now apply letter_c_matches].
    + intros Hjs. split; apply Hin; split;
        try apply skill_java_in_vocabulary; auto.
      apply (contains_trans "java" "javascript"); [reflexivity | exact Hjs].
  - intros stop_words p db request file Hfile Htext.
    unfold upload_resume. rewrite Hfile, Htext.
    destruct (negb (looks_like_resume (strip text))).
    + simpl. intros E. injection E as E. now apply messages_differ.
    + assert (Hs : truthy (extract_skills_from_text (strip text)) = true).
      { apply Hmatch. destruct Hc as [H|H]; [left | right];
          (apply strip_keeps; [reflexivity | exact H]). }
      rewrite Hs. simpl. unfold create_resume.
      match goal with
      | |- context [create_draft_scores ?a ?b ?c ?d ?e ?f ?g] =>
          destruct (create_draft_scores a b c d e f g) as [db2 [[|]|]]
      end; simpl; discriminate.
Qed.

Lemma letter_c_always_a_skill_witness :
  extract_skills_from_text Sample.text_c_only <> EmptyString
  /\ contains "c" (extract_skills_from_text Sample.text_c_only) = true
  /\ (exists L, extract_skills_from_text Sample.text_c_only = join ", " L /\ In "c" L
                /\ (contains "javascript" (lower Sample.text_c_only) = true ->
                    In "java" L /\ In "javascript" L))
  /\ (forall stop_words p db request file,
         posted_file request = Some file ->
         extract_text_from_resume p file = Sample.text_c_only ->
         snd (upload_resume stop_words p db request)
         <> Redirect "upload_resume" (Some (ERROR, MSG_NO_SKILLS))).
Proof.
  apply (letter_c_always_a_skill Sample.text_c_only).
  left. vm_compute. tauto.
Defined.

(** The resume keywords "education", "experience" and "project" all carry
    the letter c, so a text with one of them lists the skill "c". *)
Lemma resume_keywords_with_c (text k : string) :
  k = "education" \/ k = "experience" \/ k = "project" ->
  contains k (lower text) = true ->
  truthy (extract_skills_from_text text) = true
  /\ contains "c" (extract_skills_from_text text) = true.
Proof.
  intros Hk Hc. apply matched_keyword_reported;
    [apply skill_c_in_vocabulary | discriminate |].
  apply (contains_trans "c" k); [|exact Hc].
  destruct Hk as [->|[->| ->]]; reflexivity.
Qed.

(** ** The resume check *)

(** C5. The check accepts a text exactly when it has at least 200 characters
    and its lowered form contains one of the eleven keywords; a text of 150
    characters is rejected even when it contains "education". *)
Theorem looks_like_resume_spec :
  RESUME_KEYWORDS
  = ["education"; "experience"; "skills"; "project"; "b.tech"; "btech";
     "bachelor"; "masters"; "internship"; "curriculum vitae"; "resume"]
  /\ (forall text,
         looks_like_resume text = true
         <-> 200 <= String.length text
             /\ exists k, In k RESUME_KEYWORDS /\ contains k (lower text) = true)
  /\ (forall text, String.length text < 200 -> looks_like_resume text = false)
  /\ String.length Sample.text_short = 150
  /\ contains "education" (lower Sample.text_short) = true
  /\ looks_like_resume Sample.text_short = false.
Proof.
  split; [reflexivity|]. split; [|split].
  - intros text. unfold looks_like_resume.
    rewrite negb_true_iff, orb_false_iff, negb_false_iff, Nat.ltb_ge, existsb_exists.
    reflexivity.
  - intros text Hlen. unfold looks_like_resume.
    apply Nat.ltb_lt in Hlen. now rewrite Hlen.
  - repeat split; vm_compute; reflexivity.
Qed.

(** ** Missing skills *)

Lemma skills_set_In (text t : string) :
  In t (skills_set text) <-> In t (spec_skill_tokens text).
Proof.
  unfold skills_set, spec_skill_tokens, set_of.
  rewrite nodup_In, in_map_iff, filter_In, map_map, in_map_iff. split.
  - intros (s & <- & Hs). apply filter_In in Hs. destruct Hs as [Hs Ht].
    split; [now exists s | now rewrite lower_empty].
  - intros [(s & <- & Hs) Ht]. exists s. split; [reflexivity|].
    apply filter_In. split; [exact Hs | now rewrite <- lower_empty].
Qed.

Lemma set_diff_In (a b : list string) (x : string) :
  In x (set_diff a b) <-> In x a /\ ~ In x b.
Proof.
  unfold set_diff. rewrite filter_In, negb_true_iff. split; intros [Ha Hb]; split; auto.
  - intros Hin. assert (E : existsb (String.eqb x) b = true).
    { apply existsb_exists. exists x. split; [exact Hin | apply String.eqb_refl]. }
    congruence.
  - destruct (existsb (String.eqb x) b) eqn:E; [|reflexivity].
    apply existsb_exists in E. destruct E as (y & Hy & Exy).
    apply String.eqb_eq in Exy. subst y. contradiction.
Qed.

(** C6. The recommendation is the ", "-joined, strictly increasing list of
    the job's skill tokens that are not among the candidate's, where the
    tokens of a text come from splitting on commas, trimming, lowercasing
    and dropping empty tokens. *)
Theorem missing_skills_is_set_difference :
  (forall skills_text job_text,
      exists L, missing_skills skills_text job_text = join ", " L
                /\ StronglySorted lt_str L
                /\ forall t, In t L <-> In t (spec_skill_tokens job_text)
                                        /\ ~ In t (spec_skill_tokens skills_text))
  /\ missing_skills "python, sql" "python, django, sql" = "django".
Proof.
  split; [|vm_compute; reflexivity].
  intros skills_text job_text.
  exists (sorted (set_diff (skills_set job_text) (skills_set skills_text))).
  split; [reflexivity|]. split.
  - apply sorted_strict. unfold set_diff. apply NoDup_filter.
    unfold skills_set, set_of. apply NoDup_nodup.
  - intros t. now rewrite sorted_In, set_diff_In, !skills_set_In.
Qed.

(** ** Rejections of an upload *)

(** C8. When the resume check rejects the text, or no skill is found in it,
    the view returns the store exactly as it received it - no resume and no
    score is created - and the two cases answer with different messages. *)
Theorem rejections_persist_nothing (stop_words : list string) (p : Parsers)
    (db : DB) (request : Request) (file : UploadedFile) :
  posted_file request = Some file ->
  (looks_like_resume (strip (extract_text_from_resume p file)) = false ->
   upload_resume stop_words p db request
   = (db, Redirect "upload_resume" (Some (ERROR, MSG_NOT_A_RESUME))))
  /\ (looks_like_resume (strip (extract_text_from_resume p file)) = true ->
      extract_skills_from_text (strip (extract_text_from_resume p file)) = "" ->
      upload_resume stop_words p db request
      = (db, Redirect "upload_resume" (Some (ERROR, MSG_NO_SKILLS))))
  /\ MSG_NOT_A_RESUME <> MSG_NO_SKILLS.
Proof.
  intros Hfile. unfold upload_resume. rewrite Hfile. repeat split.
  - intros Hno. now rewrite Hno.
  - intros Hyes Hempty. now rewrite Hyes, Hempty.
  - exact messages_differ.
Qed.

Lemma rejections_persist_nothing_witness :
  (looks_like_resume
     (strip (extract_text_from_resume Sample.parsers (mkFile "cv.txt" Sample.text_no_skills)))
   = false ->
   upload_resume Sample.stop_words Sample.parsers Sample.one_job
     (Sample.upload 7 Sample.text_no_skills)
   = (Sample.one_job, Redirect "upload_resume" (Some (ERROR, MSG_NOT_A_RESUME))))
  /\ (looks_like_resume
        (strip (extract_text_from_resume Sample.parsers (mkFile "cv.txt" Sample.text_no_skills)))
      = true ->
      extract_skills_from_text
        (strip (extract_text_from_resume Sample.parsers (mkFile "cv.txt" Sample.text_no_skills)))
      = "" ->
      upload_resume Sample.stop_words Sample.parsers Sample.one_job
        (Sample.upload 7 Sample.text_no_skills)
      = (Sample.one_job, Redirect "upload_resume" (Some (ERROR, MSG_NO_SKILLS))))
  /\ MSG_NOT_A_RESUME <> MSG_NO_SKILLS.
Proof.
  apply (rejections_persist_nothing Sample.stop_words Sample.parsers Sample.one_job
           (Sample.upload 7 Sample.text_no_skills)
           (mkFile "cv.txt" Sample.text_no_skills)).
  reflexivity.
Defined.

(** Both rejections on the sample uploads: the short text fails the check,
    the text without keywords passes it and yields no skill. *)
Example rejections_on_samples :
  upload_resume Sample.stop_words Sample.parsers Sample.one_job
    (Sample.upload 7 Sample.text_short)
  = (Sample.one_job, Redirect "upload_resume" (Some (ERROR, MSG_NOT_A_RESUME)))
  /\ upload_resume Sample.stop_words Sample.parsers Sample.one_job
       (Sample.upload 7 Sample.text_no_skills)
     = (Sample.one_job, Redirect "upload_resume" (Some (ERROR, MSG_NO_SKILLS))).
Proof. split; vm_compute; reflexivity. Qed.

(** ** One score per (owner, job) *)

Section Pairs.

Lemma score_owner_after_resume (db : DB) (r : Resume) (sc : Score) (u : nat) :
  score_owner db sc = Some u ->
  score_owner (mkDB (jobs db) (resumes db ++ [r]) (scores db)) sc = Some u.
Proof.
  unfold score_owner. simpl.
  destruct (find _ (resumes db)) as [x|] eqn:E; [|discriminate].
  now rewrite (find_app_some _ _ _ _ _ E).
Qed.

(** A new resume does not hide the scores that exist. *)
Lemma already_exists_after_resume (db : DB) (r : Resume) (u : nat) (job : Job) :
  already_exists db u job = true ->
  already_exists (mkDB (jobs db) (resumes db ++ [r]) (scores db)) u job = true.
Proof.
  unfold already_exists. rewrite !existsb_exists.
  intros (sc & Hin & Hm). exists sc. split; [exact Hin|].
  unfold score_matches in *. apply andb_true_iff in Hm. destruct Hm as [Hj Ho].
  rewrite Hj. simpl.
  destruct (score_owner db sc) as [v|] eqn:E; [|discriminate].
  now rewrite (score_owner_after_resume db r sc v E).
Qed.

(** When every job is matched already, the loop creates nothing. *)
Lemma create_draft_scores_all_matched stop_words u resume skills_text js db flag :
  (forall job, In job js -> already_exists db u job = true) ->
  create_draft_scores stop_words u resume skills_text js db flag = (db, Finished flag).
Proof.
  induction js as [|job rest IH]; intros Hall; simpl; [reflexivity|].
  rewrite (Hall job (or_introl eq_refl)). apply IH.
  intros j Hj. apply Hall. now right.
Qed.

Lemma score_matches_same_tables (db db' : DB) (u : nat) (job : Job) (sc : Score) :
  resumes db' = resumes db ->
  score_matches db' u job sc = score_matches db u job sc.
Proof. intros Hr. unfold score_matches, score_owner. now rewrite Hr. Qed.

Lemma already_exists_count (db : DB) (u : nat) (job : Job) :
  already_exists db u job = false <-> pair_count db u job = 0.
Proof.
  unfold already_exists, pair_count.
  induction (scores db) as [|sc l IH]; simpl; [tauto|].
  destruct (score_matches db u job sc); simpl; [split; discriminate | exact IH].
Qed.

(** The effect of one [Score.objects.create] on the pair counts. *)
Lemma pair_count_after_create (db : DB) (resume : Resume) (job : Job) v rec
    (u : nat) (j : Job) :
  find (fun r => (resume_id r =? resume_id resume)%nat) (resumes db) = Some resume ->
  pair_count (create_score db resume job v rec DRAFT false) u j
  = pair_count db u j
    + (if (job_id job =? job_id j)%nat && (resume_user resume =? u)%nat
       then 1 else 0).
Proof.
  intros Hres. unfold pair_count, create_score. simpl.
  rewrite filter_app, length_app. f_equal.
  cbn [filter]. unfold score_matches, score_owner. cbn [score_job score_resume resumes].
  rewrite Hres. cbn [option_map].
  now destruct ((job_id job =? job_id j)%nat && (resume_user resume =? u)%nat).
Qed.

End Pairs.

(** ** Nothing new to create *)

Lemma my_applications_messages_differ :
  MSG_NOTHING_CREATED <> MSG_CREATED
  /\ MSG_NOTHING_CREATED <> MSG_NOT_A_RESUME
  /\ MSG_NOTHING_CREATED <> MSG_NO_SKILLS.
Proof. repeat split; intros H; vm_compute in H; discriminate H. Qed.

(** C3, as the code has it. When an accepted upload creates no score -
    every job of the store has a score of this user already, which includes
    the store without jobs - the view answers with the warning
    [MSG_NOTHING_CREATED], which differs from the success message and from
    both rejections; the scores are left as they were. *)
Theorem nothing_created_warning (stop_words : list string) (p : Parsers)
    (db : DB) (request : Request) (file : UploadedFile) :
  posted_file request = Some file ->
  looks_like_resume (strip (extract_text_from_resume p file)) = true ->
  truthy (extract_skills_from_text (strip (extract_text_from_resume p file))) = true ->
  (forall job, In job (jobs db) -> already_exists db (user request) job = true) ->
  snd (upload_resume stop_words p db request)
  = Redirect "my_applications" (Some (WARNING, MSG_NOTHING_CREATED))
  /\ scores (fst (upload_resume stop_words p db request)) = scores db
  /\ MSG_NOTHING_CREATED <> MSG_CREATED
  /\ MSG_NOTHING_CREATED <> MSG_NOT_A_RESUME
  /\ MSG_NOTHING_CREATED <> MSG_NO_SKILLS.
Proof.
  intros Hfile Hok Hskills Hall.
  split; [|split; [|exact my_applications_messages_differ]];
    unfold upload_resume; rewrite Hfile, Hok, Hskills; simpl;
    unfold create_resume; rewrite create_draft_scores_all_matched;
    try reflexivity;
    intros job Hjob; apply already_exists_after_resume, Hall; exact Hjob.
Qed.

Lemma nothing_created_warning_witness :
  snd (upload_resume Sample.stop_words Sample.parsers Sample.one_draft
         (Sample.upload 7 Sample.text_ok))
  = Redirect "my_applications" (Some (WARNING, MSG_NOTHING_CREATED))
  /\ scores (fst (upload_resume Sample.stop_words Sample.parsers Sample.one_draft
                    (Sample.upload 7 Sample.text_ok)))
     = scores Sample.one_draft
  /\ MSG_NOTHING_CREATED <> MSG_CREATED
  /\ MSG_NOTHING_CREATED <> MSG_NOT_A_RESUME
  /\ MSG_NOTHING_CREATED <> MSG_NO_SKILLS.
Proof.
  apply (nothing_created_warning Sample.stop_words Sample.parsers Sample.one_draft
           (Sample.upload 7 Sample.text_ok) (mkFile "cv.txt" Sample.text_ok)).
  - reflexivity.
  - vm_compute. reflexivity.
  - vm_compute. reflexivity.
  - intros job [<-|[]]. vm_compute. reflexivity.
Defined.

(** C3, as the specification states it, fails: with no job in the store the
    view gives the very answer it gives when every job is matched already. *)
Lemma no_jobs_answer_not_distinct :
  jobs Sample.no_jobs = []
  /\ jobs Sample.one_draft = [Sample.backend]
  /\ already_exists Sample.one_draft 7 Sample.backend = true
  /\ snd (upload_resume Sample.stop_words Sample.parsers Sample.no_jobs
            (Sample.upload 7 Sample.text_ok))
     = Redirect "my_applications" (Some (WARNING, MSG_NOTHING_CREATED))
  /\ snd (upload_resume Sample.stop_words Sample.parsers Sample.one_draft
            (Sample.upload 7 Sample.text_ok))
     = snd (upload_resume Sample.stop_words Sample.parsers Sample.no_jobs
              (Sample.upload 7 Sample.text_ok)).
Proof. repeat split; vm_compute; reflexivity. Qed.

(** ** The loop keeps one score per pair and is idempotent *)

Section OnePerPair.

Variable stop_words : list string.
Variable u : nat.
Variable resume : Resume.
Variable skills_text : string.
Hypothesis resume_owner : resume_user resume = u.

Lemma pair_count_job_id (db : DB) (v : nat) (j j' : Job) :
  job_id j = job_id j' -> pair_count db v j = pair_count db v j'.
Proof.
  intros E. unfold pair_count. f_equal. apply filter_ext.
  intros sc. unfold score_matches. now rewrite E.
Qed.

Lemma already_exists_mono (db db' : DB) (v : nat) (j : Job) (extra : list Score) :
  resumes db' = resumes db -> scores db' = scores db ++ extra ->
  already_exists db v j = true -> already_exists db' v j = true.
Proof.
  intros Hr Hs. unfold already_exists. rewrite Hs, existsb_app.
  intros H. apply orb_true_iff. left.
  apply existsb_exists in H. destruct H as (sc & Hin & Hm).
  apply existsb_exists. exists sc. split; [exact Hin|].
  now rewrite (score_matches_same_tables db db').
Qed.

(** The pair counts never exceed one after the loop if they did not before. *)
Lemma create_draft_scores_pairs (js : list Job) :
  forall db flag db' e,
    find (fun r => (resume_id r =? resume_id resume)%nat) (resumes db) = Some resume ->
    create_draft_scores stop_words u resume skills_text js db flag = (db', e) ->
    (forall v j, pair_count db v j <= 1) ->
    forall v j, pair_count db' v j <= 1.
Proof.
  induction js as [|job rest IH]; intros db flag db' e Hres H Hinv; simpl in H.
  - now inversion H; subst.
  - destruct (already_exists db u job) eqn:Hex; [eauto|].
    destruct (Scorer.score_value stop_words skills_text (required_skills job))
      as [val|]; [|now inversion H; subst].
    eapply IH; [|exact H|]; [exact Hres|].
    intros v j. rewrite pair_count_after_create by exact Hres.
    destruct ((job_id job =? job_id j)%nat && (resume_user resume =? v)%nat) eqn:E.
    + apply andb_true_iff in E. destruct E as [Ej Ev].
      apply Nat.eqb_eq in Ej, Ev. rewrite resume_owner in Ev. subst v.
      rewrite <- (pair_count_job_id db u job j Ej).
      apply already_exists_count in Hex. rewrite Hex. lia.
    + rewrite Nat.add_0_r. apply Hinv.
Qed.

(** After a loop that ran to its end, every job it went through is matched. *)
Lemma create_draft_scores_covers (js : list Job) :
  forall db flag db' flag',
    find (fun r => (resume_id r =? resume_id resume)%nat) (resumes db) = Some resume ->
    create_draft_scores stop_words u resume skills_text js db flag
    = (db', Finished flag') ->
    forall job, In job js -> already_exists db' u job = true.
Proof.
  induction js as [|job rest IH]; intros db flag db' flag' Hres H j Hj;
    [contradiction|]. simpl in H.
  destruct (already_exists db u job) eqn:Hex.
  - destruct Hj as [<-|Hj]; [|eauto].
    destruct (create_draft_scores_appends _ _ _ _ _ _ _ _ _ H)
      as (_ & Hr & extra & Hs & _).
    eapply already_exists_mono; eauto.
  - destruct (Scorer.score_value stop_words skills_text (required_skills job))
      as [val|]; [|discriminate].
    destruct Hj as [<-|Hj];
      [|exact (IH (create_score db resume job val
                     (missing_skills skills_text (required_skills job)) DRAFT false)
                  true db' flag' Hres H j Hj)].
    destruct (create_draft_scores_appends _ _ _ _ _ _ _ _ _ H)
      as (_ & Hr & extra & Hs & _).
    eapply already_exists_mono; [exact Hr | exact Hs |].
    destruct (already_exists (create_score db resume job val
                (missing_skills skills_text (required_skills job)) DRAFT false) u job)
      eqn:Hnew; [reflexivity|].
    apply already_exists_count in Hnew.
    rewrite pair_count_after_create in Hnew by exact Hres.
    rewrite Nat.eqb_refl, resume_owner, Nat.eqb_refl in Hnew. simpl in Hnew. lia.
Qed.

(** A score is created only for a job that had none for this owner. *)
Lemma create_draft_scores_only_new (js : list Job) :
  forall db flag db' e,
    create_draft_scores stop_words u resume skills_text js db flag = (db', e) ->
    forall sc, In sc (scores db') ->
      In sc (scores db)
      \/ exists job, In job js /\ score_job sc = job_id job
                     /\ already_exists db u job = false.
Proof.
  induction js as [|job rest IH]; intros db flag db' e H sc Hsc; simpl in H.
  - inversion H; subst. now left.
  - destruct (already_exists db u job) eqn:Hex.
    + destruct (IH _ _ _ _ H sc Hsc) as [Hin|(j & Hj & Hk & Hno)]; [now left|].
      right. exists j. repeat split; auto. now right.
    + destruct (Scorer.score_value stop_words skills_text (required_skills job))
        as [val|]; [|inversion H; subst; now left].
      destruct (IH _ _ _ _ H sc Hsc) as [Hin|(j & Hj & Hk & Hno)].
      * simpl in Hin. apply in_app_or in Hin. destruct Hin as [Hin|[<-|[]]];
          [now left|]. right. exists job. repeat split; auto. now left.
      * right. exists j. repeat split; auto; [now right|].
        destruct (already_exists db u j) eqn:Hj'; [|reflexivity].
        rewrite <- Hno. symmetry.
        eapply (already_exists_mono db _ u j); [| |exact Hj']; simpl; reflexivity.
Qed.

End OnePerPair.

(** ** Uploads *)

(** An upload either returns early with the store untouched, or stores the
    resume and runs the loop over the jobs of the store. *)
Lemma upload_resume_cases (stop_words : list string) (p : Parsers) (db : DB)
    (request : Request) :
  (fst (upload_resume stop_words p db request) = db
   /\ forall m, snd (upload_resume stop_words p db request)
                <> Redirect "my_applications" m)
  \/ exists fname skills_text db2 e,
       let resume := mkResume (next_id (map resume_id (resumes db)))
                              (user request) fname skills_text in
       create_draft_scores stop_words (user request) resume skills_text (jobs db)
         (mkDB (jobs db) (resumes db ++ [resume]) (scores db)) false = (db2, e)
       /\ fst (upload_resume stop_words p db request) = db2
       /\ (e = Raised -> snd (upload_resume stop_words p db request) = ServerError).
Proof.
  unfold upload_resume.
  destruct (posted_file request) as [file|]; [|left; split; [reflexivity|discriminate]].
  destruct (negb (looks_like_resume _));
    [left; split; [reflexivity | intros m E; discriminate E]|].
  destruct (negb (truthy _));
    [left; split; [reflexivity | intros m E; discriminate E]|].
  right. unfold create_resume.
  match goal with
  | |- context [create_draft_scores ?a ?b (mkResume ?i ?us ?f ?sk) ?d ?e ?g ?h] =>
      exists f, sk;
      destruct (create_draft_scores a b (mkResume i us f sk) d e g h)
        as [db2 e2] eqn:Hloop
  end.
  exists db2, e2. cbv zeta. split; [exact Hloop|].
  destruct e2 as [[|]|]; split; try reflexivity; discriminate.
Qed.

Lemma find_fresh_resume (db : DB) (r : Resume) :
  resume_id r = next_id (map resume_id (resumes db)) ->
  find (fun x => (resume_id x =? resume_id r)%nat) (resumes db ++ [r]) = Some r.
Proof.
  intros Hid. pose proof (next_id_fresh (map resume_id (resumes db))) as Hfresh.
  rewrite <- Hid in Hfresh. clear Hid.
  induction (resumes db) as [|a l IH]; simpl.
  - now rewrite Nat.eqb_refl.
  - destruct (resume_id a =? resume_id r)%nat eqn:E.
    + apply Nat.eqb_eq in E. exfalso. apply Hfresh. now left.
    + apply IH. intros Hin. apply Hfresh. now right.
Qed.

(** Storing a resume leaves the pair counts alone when every score points at
    a stored resume. *)
Lemma pair_count_after_resume (db : DB) (r : Resume) (v : nat) (j : Job) :
  (forall sc, In sc (scores db) -> score_owner db sc <> None) ->
  pair_count (mkDB (jobs db) (resumes db ++ [r]) (scores db)) v j
  = pair_count db v j.
Proof.
  intros Hfk. unfold pair_count. simpl. f_equal. apply filter_ext_in.
  intros sc Hsc. unfold score_matches. f_equal.
  destruct (score_owner db sc) as [w|] eqn:E; [|now apply Hfk in Hsc].
  now rewrite (score_owner_after_resume db r sc w E).
Qed.

(** C4, as the code has it. An upload creates a score for a job only when
    the store holds no score for (this user, that job); so a store with at
    most one score per (owner, job) pair has at most one per pair afterwards;
    and once an upload has run its loop to the end - it was answered with the
    redirect to "my_applications" - another upload by the same user on the
    resulting store creates no score at all. *)
Theorem upload_one_score_per_pair (stop_words : list string) (p : Parsers)
    (db : DB) (request : Request) :
  (forall sc, In sc (scores db) -> score_owner db sc <> None) ->
  (forall v j, pair_count db v j <= 1) ->
  (forall v j, pair_count (fst (upload_resume stop_words p db request)) v j <= 1)
  /\ (forall sc, In sc (scores (fst (upload_resume stop_words p db request))) ->
        In sc (scores db)
        \/ exists job, In job (jobs db) /\ score_job sc = job_id job
                       /\ already_exists db (user request) job = false)
  /\ (forall m stop_words2 p2 request2,
        snd (upload_resume stop_words p db request) = Redirect "my_applications" m ->
        user request2 = user request ->
        scores (fst (upload_resume stop_words2 p2
                       (fst (upload_resume stop_words p db request)) request2))
        = scores (fst (upload_resume stop_words p db request))).
Proof.
  intros Hfk Hinv.
  destruct (upload_resume_cases stop_words p db request)
    as [[Hsame Hnot]|(fname & skills_text & db2 & e & Hloop & Hfst & Hraised)].
  - rewrite Hsame. split; [exact Hinv|]. split; [now left|].
    intros m ? ? ? Hm. now apply Hnot in Hm.
  - cbv zeta in Hloop. rewrite Hfst.
    set (resume := mkResume (next_id (map resume_id (resumes db)))
                            (user request) fname skills_text) in *.
    set (db1 := mkDB (jobs db) (resumes db ++ [resume]) (scores db)) in *.
    assert (Hres : find (fun r => (resume_id r =? resume_id resume)%nat) (resumes db1)
                   = Some resume) by (apply find_fresh_resume; reflexivity).
    split; [|split].
    + eapply (create_draft_scores_pairs stop_words (user request) resume skills_text
                eq_refl (jobs db) db1); [exact Hres | exact Hloop |].
      intros v j. unfold db1. now rewrite pair_count_after_resume.
    + intros sc Hsc.
      destruct (create_draft_scores_only_new stop_words (user request) resume
                  skills_text eq_refl (jobs db) db1 false db2 e Hloop sc Hsc)
        as [Hin|(job & Hjob & Hk & Hno)]; [now left|].
      right. exists job. repeat split; auto.
      destruct (already_exists db (user request) job) eqn:Hex; [|reflexivity].
      rewrite <- Hno. symmetry. now apply already_exists_after_resume.
    + intros m stop_words2 p2 request2 Hm Huser.
      destruct e as [flag|]; [|rewrite (Hraised eq_refl) in Hm; discriminate].
      assert (Hall : forall job, In job (jobs db2) ->
                                 already_exists db2 (user request2) job = true).
      { destruct (create_draft_scores_appends _ _ _ _ _ _ _ _ _ Hloop)
          as (Hj & _). rewrite Hj, Huser. simpl.
        exact (create_draft_scores_covers stop_words (user request) resume skills_text
                 eq_refl (jobs db) db1 false db2 flag Hres Hloop). }
      destruct (upload_resume_cases stop_words2 p2 db2 request2)
        as [[Hsame2 _]|(fname2 & sk2 & db3 & e3 & Hloop2 & Hfst2 & _)].
      * now rewrite Hsame2.
      * rewrite Hfst2. cbv zeta in Hloop2.
        rewrite create_draft_scores_all_matched in Hloop2.
        -- now inversion Hloop2.
        -- intros job Hjob. now apply already_exists_after_resume, Hall.
Qed.

Lemma upload_one_score_per_pair_witness :
  (forall v j,
      pair_count (fst (upload_resume Sample.stop_words Sample.parsers Sample.one_job
                         (Sample.upload 7 Sample.text_ok))) v j <= 1)
  /\ (forall sc,
        In sc (scores (fst (upload_resume Sample.stop_words Sample.parsers
                              Sample.one_job (Sample.upload 7 Sample.text_ok)))) ->
        In sc (scores Sample.one_job)
        \/ exists job, In job (jobs Sample.one_job) /\ score_job sc = job_id job
                       /\ already_exists Sample.one_job
                            (user (Sample.upload 7 Sample.text_ok)) job = false)
  /\ (forall m stop_words2 p2 request2,
        snd (upload_resume Sample.stop_words Sample.parsers Sample.one_job
               (Sample.upload 7 Sample.text_ok)) = Redirect "my_applications" m ->
        user request2 = user (Sample.upload 7 Sample.text_ok) ->
        scores (fst (upload_resume stop_words2 p2
                       (fst (upload_resume Sample.stop_words Sample.parsers
                               Sample.one_job (Sample.upload 7 Sample.text_ok)))
                       request2))
        = scores (fst (upload_resume Sample.stop_words Sample.parsers Sample.one_job
                         (Sample.upload 7 Sample.text_ok)))).
Proof.
  apply (upload_one_score_per_pair Sample.stop_words Sample.parsers Sample.one_job
           (Sample.upload 7 Sample.text_ok)).
  - intros sc [].
  - intros v j. cbv. lia.
Defined.

(** The sample upload run twice: the first run creates the draft score of
    [Sample.one_draft], the second creates none. *)
Example second_upload_creates_nothing :
  scores (fst (upload_resume Sample.stop_words Sample.parsers Sample.one_job
                 (Sample.upload 7 Sample.text_ok)))
  = scores Sample.one_draft
  /\ scores (fst (upload_resume Sample.stop_words Sample.parsers
                    (fst (upload_resume Sample.stop_words Sample.parsers
                            Sample.one_job (Sample.upload 7 Sample.text_ok)))
                    (Sample.upload 7 Sample.text_ok)))
     = scores Sample.one_draft.
Proof. split; vm_compute; reflexivity. Qed.

(** C4, as the specification states it, fails: the first upload stores its
    resume and starts the loop, the scorer raises at the first job (neither
    "c" nor "C, R" has a term), so the run ends without a score; a second
    upload by the same user over the same two jobs then creates two scores. *)
Lemma second_upload_after_raise_creates :
  snd (upload_resume Sample.stop_words Sample.parsers SampleTwoJobs.store
         SampleTwoJobs.first_upload) = ServerError
  /\ map resume_skills (resumes SampleTwoJobs.after_first) = ["c"]
  /\ scores SampleTwoJobs.after_first = []
  /\ jobs SampleTwoJobs.after_first = jobs SampleTwoJobs.store
  /\ user SampleTwoJobs.second_upload = user SampleTwoJobs.first_upload
  /\ map score_job
        (scores (fst (upload_resume Sample.stop_words Sample.parsers
                        SampleTwoJobs.after_first SampleTwoJobs.second_upload)))
     = [1; 2]
  /\ scores (fst (upload_resume Sample.stop_words Sample.parsers
                    SampleTwoJobs.after_first SampleTwoJobs.second_upload))
     <> scores SampleTwoJobs.after_first.
Proof.
  repeat split; try (vm_compute; reflexivity).
  intros H. vm_compute in H. discriminate H.
Qed.

(** ** The score when a text has no term *)

Section EmptyDocuments.

Import Sklearn.

Variable stop_words : list string.

Lemma tfidf_row_no_terms (dfs : list nat) (vocab : list string) (i : nat) :
  tfidf_row [] dfs i vocab = [].
Proof.
  revert dfs i. induction vocab as [|t vocab IH]; intros [|df dfs] i; simpl; auto.
Qed.

Lemma row_dot_empty_r (x : row) : row_dot x [] = 0%float.
Proof.
  unfold row_dot. induction x as [|e x IH]; simpl; [reflexivity | exact IH].
Qed.

Lemma vocabulary_empty_iff (a b : string) :
  vocabulary stop_words [a; b] = []
  <-> analyze stop_words a = [] /\ analyze stop_words b = [].
Proof.
  unfold vocabulary. simpl. rewrite app_nil_r. split.
  - intros H.
    assert (Hnone : forall t, ~ In t (analyze stop_words a ++ analyze stop_words b)).
    { intros t Ht. apply (nodup_In string_dec) in Ht.
      apply sorted_In in Ht. unfold set_of in H. rewrite H in Ht. exact Ht. }
    destruct (analyze stop_words a) as [|t l]; [|exfalso; apply (Hnone t); now left].
    destruct (analyze stop_words b) as [|t l]; [|exfalso; apply (Hnone t); now left].
    now split.
  - intros [-> ->]. reflexivity.
Qed.

(** Without any term in either text the vectorizer raises. *)
Lemma score_value_both_empty (a b : string) :
  analyze stop_words a = [] -> analyze stop_words b = [] ->
  Scorer.score_value stop_words a b = None.
Proof.
  intros Ha Hb. unfold Scorer.score_value, fit_transform.
  now rewrite (proj2 (vocabulary_empty_iff a b) (conj Ha Hb)).
Qed.

Lemma score_value_one_empty (a b : string) :
  (analyze stop_words a = [] /\ analyze stop_words b <> [])
  \/ (analyze stop_words a <> [] /\ analyze stop_words b = []) ->
  Scorer.score_value stop_words a b = Some 0%float.
Proof.
  intros H. unfold Scorer.score_value, fit_transform.
  destruct (vocabulary stop_words [a; b]) as [|t vocab] eqn:Hv.
  - apply vocabulary_empty_iff in Hv. destruct Hv as [Ha Hb].
    destruct H as [[_ H]|[H _]]; contradiction.
  - destruct H as [[Ha _]|[_ Hb]].
    + rewrite Ha. rewrite tfidf_row_no_terms. reflexivity.
    + rewrite Hb. rewrite tfidf_row_no_terms.
      unfold cosine_similarity.
      change (normalize_l2 (normalize_l2 [])) with (@nil (nat * float)).
      now rewrite row_dot_empty_r.
Qed.

End EmptyDocuments.

(** C1, as the code has it. When one of the two texts yields no term and the
    other yields at least one, the score is 0.0 and nothing is raised; with
    "python" not a stop word, [score("", "python")] is 0.0. *)
Theorem score_zero_when_one_side_empty (stop_words : list string) (a b : string) :
  (Sklearn.analyze stop_words a = [] /\ Sklearn.analyze stop_words b <> [])
  \/ (Sklearn.analyze stop_words a <> [] /\ Sklearn.analyze stop_words b = []) ->
  Scorer.score_value stop_words a b = Some 0%float
  /\ (~ In "python" stop_words ->
      Scorer.score_value stop_words "" "python" = Some 0%float).
Proof.
  intros H. split; [now apply score_value_one_empty|].
  intros Hpy. apply score_value_one_empty. left. split; [reflexivity|].
  unfold Sklearn.analyze.
  change (Sklearn.tokenize "python") with ["python"]. cbn [filter].
  destruct (existsb (String.eqb "python") stop_words) eqn:E; [|discriminate].
  apply existsb_exists in E. destruct E as (w & Hw & Ew).
  apply String.eqb_eq in Ew. subst w. contradiction.
Qed.

Lemma score_zero_when_one_side_empty_witness :
  Scorer.score_value Sample.stop_words "c, c++" "python, django, sql" = Some 0%float
  /\ (~ In "python" Sample.stop_words ->
      Scorer.score_value Sample.stop_words "" "python" = Some 0%float).
Proof.
  apply (score_zero_when_one_side_empty Sample.stop_words "c, c++" "python, django, sql").
  left. split; [reflexivity | intros H; vm_compute in H; discriminate H].
Defined.

(** C1, as the specification states it, fails for every stop-word table:
    when neither text yields a term ("c" has no token of two characters, the
    empty text has none at all) the vectorizer raises instead of scoring 0.0. *)
Lemma score_raises_when_both_empty :
  ~ (exists stop_words, forall a b,
        Sklearn.analyze stop_words a = [] \/ Sklearn.analyze stop_words b = [] ->
        Scorer.score_value stop_words a b = Some 0%float).
Proof.
  intros [stop_words H].
  specialize (H "c" "" (or_introl eq_refl)).
  rewrite score_value_both_empty in H by reflexivity. discriminate H.
Qed.

(** * Further properties of the views *)

(** ** When the scorer raises, and when no skill is found *)

(** The vectorizer's exception reaches the view exactly when neither the
    skills text nor the job text contains a term; in every other case a
    value comes back. *)
Theorem score_value_raises_iff (stop_words : list string) (a b : string) :
  Scorer.score_value stop_words a b = None
  <-> Sklearn.analyze stop_words a = [] /\ Sklearn.analyze stop_words b = [].
Proof.
  split.
  - intros H. apply vocabulary_empty_iff.
    unfold Scorer.score_value, Sklearn.fit_transform in H.
    destruct (Sklearn.vocabulary stop_words [a; b]); [reflexivity | discriminate].
  - intros [Ha Hb]. now apply score_value_both_empty.
Qed.

Lemma join_empty_iff (sep : string) (l : list string) :
  (forall x, In x l -> x <> EmptyString) ->
  (join sep l = EmptyString <-> l = []).
Proof.
  intros Hne. split; [|intros ->; reflexivity].
  destruct l as [|x l]; [reflexivity|]. intros H. exfalso.
  apply (Hne x (or_introl eq_refl)).
  unfold join in H. simpl in H. destruct l; [exact H|].
  destruct x; [reflexivity | discriminate].
Qed.

(** The skill string is empty - the case the view rejects with the
    no-skills message - exactly when no keyword of the vocabulary occurs in
    the lowered text. *)
Theorem no_skills_iff_no_keyword (text : string) :
  extract_skills_from_text text = EmptyString
  <-> forall k, In k SKILL_KEYWORDS -> contains k (lower text) = false.
Proof.
  destruct (extract_skills_with_listing SKILL_KEYWORDS text) as (L & HL & _ & Hin).
  unfold extract_skills_from_text. rewrite HL.
  assert (Hne : forall x, In x L -> x <> EmptyString).
  { intros x Hx. apply Hin in Hx. destruct Hx as [Hx _]. intros ->.
    revert Hx. unfold SKILL_KEYWORDS. simpl.
    intuition discriminate. }
  rewrite (join_empty_iff ", " L Hne). split.
  - intros -> k Hk. destruct (contains k (lower text)) eqn:E; [|reflexivity].
    exfalso. apply (proj2 (Hin k) (conj Hk E)).
  - intros Hnone. destruct L as [|x L]; [reflexivity|]. exfalso.
    destruct (proj1 (Hin x) (or_introl eq_refl)) as [Hx Hc].
    rewrite (Hnone x Hx) in Hc. discriminate.
Qed.

(** The recommendation is empty exactly when every skill token of the job is
    among the candidate's tokens. *)
Theorem missing_skills_empty_iff (skills_text job_text : string) :
  missing_skills skills_text job_text = EmptyString
  <-> forall t, In t (spec_skill_tokens job_text) -> In t (spec_skill_tokens skills_text).
Proof.
  unfold missing_skills.
  set (L := sorted (set_diff (skills_set job_text) (skills_set skills_text))).
  assert (Hin : forall t, In t L <-> In t (spec_skill_tokens job_text)
                                     /\ ~ In t (spec_skill_tokens skills_text)).
  { intros t. unfold L. now rewrite sorted_In, set_diff_In, !skills_set_In. }
  assert (Hne : forall x, In x L -> x <> EmptyString).
  { intros x Hx. apply Hin in Hx. destruct Hx as [Hx _].
    unfold spec_skill_tokens in Hx. apply filter_In in Hx.
    destruct Hx as [_ Hx]. intros ->. discriminate. }
  rewrite (join_empty_iff ", " L Hne). split.
  - intros HL t Ht.
    destruct (in_dec string_dec t (spec_skill_tokens skills_text)) as [H|H];
      [exact H|].
    exfalso. assert (Hbad : In t L) by (apply Hin; auto).
    rewrite HL in Hbad. exact Hbad.
  - intros Hall. destruct L as [|x L'] eqn:E; [reflexivity|]. exfalso.
    destruct (proj1 (Hin x) (or_introl eq_refl)) as [Hx Hnx]. auto.
Qed.

(** ** From the skill string back to the skills *)

Section JoinSplit.

Lemma split_no_sep (sep : ascii) (s : string) :
  existsb (Ascii.eqb sep) (list_ascii_of_string s) = false -> split sep s = [s].
Proof.
  induction s as [|c s IH]; simpl; [reflexivity|].
  intros H. apply orb_false_iff in H. destruct H as [Hc Hs].
  rewrite Ascii.eqb_sym, Hc, (IH Hs). reflexivity.
Qed.

Lemma split_app_sep (sep : ascii) (a r : string) :
  existsb (Ascii.eqb sep) (list_ascii_of_string a) = false ->
  split sep (a ++ String sep r) = a :: split sep r.
Proof.
  induction a as [|c a IH]; simpl.
  - intros _. now rewrite Ascii.eqb_refl.
  - intros H. apply orb_false_iff in H. destruct H as [Hc Ha].
    rewrite Ascii.eqb_sym, Hc, (IH Ha). reflexivity.
Qed.

Lemma no_sep_app (sep : ascii) (a b : string) :
  existsb (Ascii.eqb sep) (list_ascii_of_string a) = false ->
  existsb (Ascii.eqb sep) (list_ascii_of_string b) = false ->
  existsb (Ascii.eqb sep) (list_ascii_of_string (a ++ b)) = false.
Proof.
  intros Ha Hb. induction a as [|c a IH]; simpl in *; [exact Hb|].
  apply orb_false_iff in Ha. destruct Ha as [Hc Ha].
  now rewrite Hc, (IH Ha).
Qed.

(** Splitting a ", "-joined list at the commas: every item but the first
    comes back with the space in front. *)
Lemma split_join (l : list string) :
  forall p x,
    existsb (Ascii.eqb ",") (list_ascii_of_string p) = false ->
    Forall (fun k => existsb (Ascii.eqb ",") (list_ascii_of_string k) = false) (x :: l) ->
    split "," (p ++ join ", " (x :: l)) = (p ++ x)%string :: map (String " ") l.
Proof.
  induction l as [|y l IH]; intros p x Hp Hall.
  - inversion Hall; subst. simpl. apply split_no_sep. now apply no_sep_app.
  - inversion Hall as [|? ? Hx Hrest]; subst.
    change (join ", " (x :: y :: l))
      with (x ++ String "," (String " " (join ", " (y :: l))))%string.
    rewrite <- append_assoc.
    rewrite split_app_sep by now apply no_sep_app.
    f_equal.
    change (String " " (join ", " (y :: l)))
      with (String " " EmptyString ++ join ", " (y :: l))%string.
    rewrite IH; [reflexivity | reflexivity | exact Hrest].
Qed.

Lemma skills_set_of_join (l : list string) :
  NoDup l -> Forall (fun k => plain_keyword k = true) l ->
  skills_set (join ", " l) = l.
Proof.
  intros Hnd Hall. unfold skills_set.
  assert (Hparts : forall k, plain_keyword k = true ->
            existsb (Ascii.eqb ",") (list_ascii_of_string k) = false
            /\ strip k = k /\ strip (String " " k) = k /\ lower k = k
            /\ truthy k = true).
  { intros k Hk. unfold plain_keyword in Hk.
    repeat (apply andb_true_iff in Hk; destruct Hk as [Hk ?]).
    apply negb_true_iff in Hk.
    repeat split; auto; now apply String.eqb_eq. }
  destruct l as [|x l]; [reflexivity|].
  change (join ", " (x :: l)) with (EmptyString ++ join ", " (x :: l))%string.
  rewrite split_join; [|reflexivity|].
  2:{ eapply Forall_impl; [|exact Hall]. intros k Hk. now apply Hparts. }
  assert (Hfix : map (fun s => lower (strip s))
                   (filter (fun s => truthy (strip s))
                      ((EmptyString ++ x)%string :: map (String " ") l))
                 = x :: l).
  { inversion Hall as [|? ? Hx Hrest]; subst.
    destruct (Hparts x Hx) as (_ & Hsx & _ & Hlx & Htx).
    cbn [append filter]. rewrite Hsx, Htx. cbn [map]. rewrite Hsx, Hlx. f_equal.
    clear - Hrest Hparts. induction Hrest as [|k l Hk Hrest IH]; [reflexivity|].
    destruct (Hparts k Hk) as (_ & _ & Hsk & Hlk & Htk).
    cbn [map filter]. rewrite Hsk, Htk. cbn [map]. rewrite Hsk, Hlk. now f_equal. }
  rewrite Hfix. unfold set_of. now apply nodup_fixed_point.
Qed.

Lemma skill_keywords_plain : Forall (fun k => plain_keyword k = true) SKILL_KEYWORDS.
Proof.
  apply Forall_forall. intros k Hk.
  assert (H : forallb plain_keyword SKILL_KEYWORDS = true) by (vm_compute; reflexivity).
  rewrite forallb_forall in H. now apply H.
Qed.

End JoinSplit.

Lemma skills_set_of_extracted_with (vocab : list string) (text t : string) :
  Forall (fun k => plain_keyword k = true) vocab ->
  In t (skills_set (extract_skills_with vocab text))
  <-> In t vocab /\ contains t (lower text) = true.
Proof.
  intros Hplain. unfold extract_skills_with.
  rewrite skills_set_of_join.
  - unfold set_of. rewrite sorted_In, nodup_In. apply found_skills_In.
  - eapply Permutation_NoDup; [apply sorted_perm | apply NoDup_nodup].
  - apply Forall_forall. intros k Hk.
    apply (proj1 (sorted_In _ k)) in Hk. unfold set_of in Hk.
    apply (proj1 (nodup_In string_dec _ k)) in Hk.
    apply (proj1 (found_skills_In vocab text k)) in Hk. destruct Hk as [Hk _].
    rewrite Forall_forall in Hplain. exact (Hplain k Hk).
Qed.

(** Reading the extractor's output back the way the matching loop reads a
    skills text gives exactly the keywords that occur in the resume text:
    nothing is lost or invented between extraction and the set difference. *)
Theorem skills_set_of_extracted (text t : string) :
  In t (skills_set (extract_skills_from_text text))
  <-> In t SKILL_KEYWORDS /\ contains t (lower text) = true.
Proof.
  exact (skills_set_of_extracted_with SKILL_KEYWORDS text t skill_keywords_plain).
Qed.

(** ** What an upload adds to the store *)

Lemma create_draft_scores_rows stop_words u resume skills_text js :
  forall db flag db' e,
    create_draft_scores stop_words u resume skills_text js db flag = (db', e) ->
    exists extra,
      scores db' = scores db ++ extra
      /\ (e = Finished (flag || negb (Nat.eqb (List.length extra) 0))
          \/ e = Raised)
      /\ Forall (fun sc =>
                   exists job, In job js
                     /\ score_job sc = job_id job
                     /\ score_resume sc = resume_id resume
                     /\ status sc = DRAFT /\ is_shortlisted sc = false
                     /\ recommended_skills sc
                        = missing_skills skills_text (required_skills job)
                     /\ Scorer.score_value stop_words skills_text (required_skills job)
                        = Some (value sc)) extra.
Proof.
  induction js as [|job rest IH]; intros db flag db' e H; simpl in H.
  - inversion H; subst. exists []. rewrite app_nil_r, orb_false_r. auto.
  - destruct (already_exists db u job).
    + destruct (IH _ _ _ _ H) as (extra & Hs & He & Hall).
      exists extra. repeat split; auto.
      eapply Forall_impl; [|exact Hall].
      intros sc (j & Hj & Hrest). exists j. split; [now right | exact Hrest].
    + destruct (Scorer.score_value stop_words skills_text (required_skills job))
        as [v|] eqn:Hv.
      * destruct (IH _ _ _ _ H) as (extra & Hs & He & Hall). simpl in Hs.
        eexists (_ :: extra). rewrite Hs, <- app_assoc. split; [reflexivity|].
        split; [simpl; rewrite orb_true_r; exact He|]. constructor.
        -- exists job. simpl. repeat split; auto.
        -- eapply Forall_impl; [|exact Hall].
           intros sc (j & Hj & Hrest). exists j. split; [now right | exact Hrest].
      * inversion H; subst. exists []. rewrite app_nil_r. auto.
Qed.

Lemma upload_resume_adds (stop_words : list string) (p : Parsers) (db : DB)
    (request : Request) :
  jobs (fst (upload_resume stop_words p db request)) = jobs db
  /\ exists added_resumes added_scores,
       resumes (fst (upload_resume stop_words p db request))
       = resumes db ++ added_resumes
       /\ scores (fst (upload_resume stop_words p db request))
          = scores db ++ added_scores
       /\ (added_resumes = [] /\ added_scores = []
           \/ exists r, added_resumes = [r] /\ resume_user r = user request
                /\ Forall (fun sc =>
                     exists job, In job (jobs db)
                       /\ score_job sc = job_id job
                       /\ score_resume sc = resume_id r
                       /\ status sc = DRAFT /\ is_shortlisted sc = false
                       /\ recommended_skills sc
                          = missing_skills (resume_skills r) (required_skills job)
                       /\ Scorer.score_value stop_words (resume_skills r)
                            (required_skills job) = Some (value sc))
                     added_scores).
Proof.
  destruct (upload_resume_cases stop_words p db request)
    as [[Hsame _]|(fname & skills_text & db2 & e & Hloop & Hfst & _)].
  - rewrite Hsame. split; [reflexivity|]. exists [], [].
    rewrite !app_nil_r. auto.
  - cbv zeta in Hloop. rewrite Hfst.
    destruct (create_draft_scores_appends _ _ _ _ _ _ _ _ _ Hloop)
      as (Hj & Hr & _).
    destruct (create_draft_scores_rows _ _ _ _ _ _ _ _ _ Hloop)
      as (extra & Hs & _ & Hall).
    split; [exact Hj|]. eexists [_], extra.
    split; [exact Hr|]. split; [exact Hs|]. right.
    eexists. split; [reflexivity|]. split; [reflexivity|]. exact Hall.
Qed.

(** An upload never changes or removes what is stored: the job table is left
    as it is, at most one resume - of the uploading user - is added at the
    end, and scores are only added after the existing ones. Each added score
    is a DRAFT that is not shortlisted, belongs to the resume just stored,
    is for a job of the job table, and carries the similarity value and the
    missing skills of the stored skills text against that job. *)
Theorem upload_only_adds (stop_words : list string) (p : Parsers) (db : DB)
    (request : Request) :
  jobs (fst (upload_resume stop_words p db request)) = jobs db
  /\ exists added_resumes added_scores,
       resumes (fst (upload_resume stop_words p db request))
       = resumes db ++ added_resumes
       /\ scores (fst (upload_resume stop_words p db request))
          = scores db ++ added_scores
       /\ (added_resumes = [] /\ added_scores = []
           \/ exists r, added_resumes = [r] /\ resume_user r = user request
                /\ Forall (fun sc =>
                     exists job, In job (jobs db)
                       /\ score_job sc = job_id job
                       /\ score_resume sc = resume_id r
                       /\ status sc = DRAFT /\ is_shortlisted sc = false
                       /\ recommended_skills sc
                          = missing_skills (resume_skills r) (required_skills job)
                       /\ Scorer.score_value stop_words (resume_skills r)
                            (required_skills job) = Some (value sc))
                     added_scores).
Proof. exact (upload_resume_adds stop_words p db request). Qed.

(** The two answers of a completed upload tell whether a score was created:
    the success message comes with at least one new score, the warning with
    none. *)
Theorem upload_answer_tells_creation (stop_words : list string) (p : Parsers)
    (db : DB) (request : Request) :
  (snd (upload_resume stop_words p db request)
   = Redirect "my_applications" (Some (SUCCESS, MSG_CREATED)) ->
   List.length (scores db)
   < List.length (scores (fst (upload_resume stop_words p db request))))
  /\ (snd (upload_resume stop_words p db request)
      = Redirect "my_applications" (Some (WARNING, MSG_NOTHING_CREATED)) ->
      scores (fst (upload_resume stop_words p db request)) = scores db).
Proof.
  unfold upload_resume.
  destruct (posted_file request) as [file|]; [|split; discriminate].
  destruct (negb (looks_like_resume _)); [split; discriminate|].
  destruct (negb (truthy _)); [split; discriminate|].
  unfold create_resume.
  match goal with
  | |- context [create_draft_scores ?a ?b ?c ?d ?e ?f ?g] =>
      destruct (create_draft_scores a b c d e f g) as [db2 e2] eqn:Hloop
  end.
  destruct (create_draft_scores_rows _ _ _ _ _ _ _ _ _ Hloop)
    as (extra & Hs & He & _).
  simpl in Hs, He.
  destruct He as [-> | ->]; [|split; discriminate].
  destruct extra as [|sc extra]; simpl.
  - split; [intros E; injection E as E; vm_compute in E; discriminate E|].
    intros _. now rewrite Hs, app_nil_r.
  - split; [|intros E; injection E as E; vm_compute in E; discriminate E].
    intros _. rewrite Hs, length_app. simpl. lia.
Qed.

(** ** Submitting an application *)

(** Only the owner of a stored score can submit it: for an unknown key, or a
    score whose resume belongs to somebody else, the view answers 404 and
    leaves the store as it is. *)
Theorem submit_by_stranger_is_404 (db : DB) (u i : nat) :
  (forall sc, In sc (scores db) -> score_id sc = i -> score_owner db sc <> Some u) ->
  submit_application db u i = (db, Http404).
Proof.
  intros Hnot. unfold submit_application.
  destruct (find _ (scores db)) as [sc|] eqn:Hfind; [|reflexivity].
  exfalso. apply find_some in Hfind. destruct Hfind as [Hin Hm].
  apply andb_true_iff in Hm. destruct Hm as [Hid Hown].
  apply Nat.eqb_eq in Hid.
  destruct (score_owner db sc) as [w|] eqn:E; [|discriminate].
  apply Nat.eqb_eq in Hown. subst w. exact (Hnot sc Hin Hid E).
Qed.

Lemma submit_by_stranger_is_404_witness :
  submit_application Sample.one_draft 8 1 = (Sample.one_draft, Http404).
Proof.
  apply (submit_by_stranger_is_404 Sample.one_draft 8 1).
  intros sc [<-|[]] _ H. vm_compute in H. discriminate H.
Defined.

Lemma find_owned_after_save (db : DB) (u i : nat) (sc : Score) (st : Status) :
  find (fun s => (score_id s =? i)%nat
                 && match score_owner db s with
                    | Some w => (w =? u)%nat
                    | None => false
                    end) (scores db) = Some sc ->
  find (fun s => (score_id s =? i)%nat
                 && match score_owner (save_score db (set_status sc st)) s with
                    | Some w => (w =? u)%nat
                    | None => false
                    end) (scores (save_score db (set_status sc st)))
  = Some (set_status sc st).
Proof.
  intros Hfind. pose proof (find_some _ _ Hfind) as [_ Hp].
  unfold save_score. cbn [scores]. cbn [score_id set_status].
  induction (scores db) as [|a l IH]; [discriminate|].
  cbn [find] in Hfind. cbn [map find].
  destruct ((score_id a =? i)%nat
            && match score_owner db a with
               | Some w => (w =? u)%nat
               | None => false
               end) eqn:Ea.
  - injection Hfind as ->. rewrite Nat.eqb_refl.
    change (score_owner _ (set_status sc st)) with (score_owner db sc).
    cbn [score_id set_status]. now rewrite Hp.
  - destruct (score_id a =? score_id sc)%nat eqn:Eid.
    + change (score_owner _ (set_status sc st)) with (score_owner db sc).
      cbn [score_id set_status]. now rewrite Hp.
    + change (score_owner _ a) with (score_owner db a). rewrite Ea.
      now apply IH.
Qed.

(** Submitting is done once: whatever the first call did, a second call for
    the same user and key leaves the store as the first call left it, and it
    answers 404 or "already submitted", never with a success. *)
Theorem submit_twice (db : DB) (u i : nat) :
  fst (submit_application (fst (submit_application db u i)) u i)
  = fst (submit_application db u i)
  /\ (snd (submit_application (fst (submit_application db u i)) u i) = Http404
      \/ snd (submit_application (fst (submit_application db u i)) u i)
         = Redirect "my_applications" (Some (INFO, MSG_ALREADY_SUBMITTED))).
Proof.
  destruct (submit_application db u i) as [db1 r1] eqn:H1. cbn [fst].
  unfold submit_application in H1.
  destruct (find _ (scores db)) as [sc|] eqn:Hfind.
  - destruct (negb (status_eqb (status sc) DRAFT)) eqn:Hd.
    + inversion H1; subst db1 r1. unfold submit_application.
      rewrite Hfind, Hd. auto.
    + inversion H1; subst db1 r1. unfold submit_application.
      rewrite (find_owned_after_save db u i sc SUBMITTED Hfind). auto.
  - inversion H1; subst db1 r1. unfold submit_application. rewrite Hfind. auto.
Qed.

(** ** What the decisions leave alone *)

Lemma same_match_refl (a : Score) : same_match a a.
Proof. unfold same_match. auto. Qed.

(** No operation recomputes a stored score: after an upload, a submission, a
    toggle or an admin action the score found under a key is the same match -
    same resume, same job, same value, same missing skills. *)
Theorem decisions_keep_the_match (db : DB) (op : Op) (i : nat) (sc : Score) :
  NoDup (map score_id (scores db)) ->
  find (fun s => (score_id s =? i)%nat) (scores db) = Some sc ->
  exists sc',
    find (fun s => (score_id s =? i)%nat) (scores (run_op db op)) = Some sc'
    /\ same_match sc sc'.
Proof.
  intros Hnd Hfind.
  destruct op as [sw p request | u j | j | sel | sel]; simpl.
  - destruct (upload_resume_appends sw p db request) as [extra ->].
    rewrite (find_app_some _ _ _ _ _ Hfind). eauto using same_match_refl.
  - unfold submit_application.
    destruct (find _ (scores db)) as [score|] eqn:Hsub at 1;
      [|simpl; eauto using same_match_refl].
    destruct (negb _); [simpl; eauto using same_match_refl|].
    simpl. rewrite find_map_same_key.
    2:{ intros s. destruct (score_id s =? score_id score)%nat eqn:E; simpl;
          [symmetry; now apply Nat.eqb_eq | reflexivity]. }
    rewrite Hfind. simpl. eexists. split; [reflexivity|].
    destruct (score_id sc =? score_id score)%nat eqn:E; [|apply same_match_refl].
    apply Nat.eqb_eq in E. apply find_some in Hsub, Hfind.
    assert (sc = score) by (eapply unique_key_same_row; eauto; tauto).
    subst sc. unfold same_match. simpl. auto.
  - unfold toggle_shortlist.
    destruct (find _ (scores db)) as [score|] eqn:Htog at 1;
      [|simpl; eauto using same_match_refl].
    simpl. rewrite find_map_same_key.
    2:{ intros s. destruct (score_id s =? score_id score)%nat eqn:E; simpl;
          [symmetry; now apply Nat.eqb_eq | reflexivity]. }
    rewrite Hfind. simpl. eexists. split; [reflexivity|].
    destruct (score_id sc =? score_id score)%nat eqn:E; [|apply same_match_refl].
    apply Nat.eqb_eq in E. apply find_some in Htog, Hfind.
    assert (sc = score) by (eapply unique_key_same_row; eauto; tauto).
    subst sc. unfold same_match. simpl. auto.
  - rewrite find_map_same_key by (intros s; now destruct (existsb _ sel)).
    rewrite Hfind. simpl. eexists. split; [reflexivity|].
    destruct (existsb _ sel); [|apply same_match_refl].
    unfold same_match. simpl. auto.
  - rewrite find_map_same_key by (intros s; now destruct (existsb _ sel)).
    rewrite Hfind. simpl. eexists. split; [reflexivity|].
    destruct (existsb _ sel); [|apply same_match_refl].
    unfold same_match. simpl. auto.
Qed.

Lemma decisions_keep_the_match_witness :
  exists sc',
    find (fun s => (score_id s =? 1)%nat)
         (scores (run_op Sample.one_draft (OpToggle 1))) = Some sc'
    /\ same_match (mkScore 1 1 1 (7093 / 100)%float "django" false DRAFT) sc'.
Proof.
  apply (decisions_keep_the_match Sample.one_draft (OpToggle 1) 1).
  - simpl. repeat constructor. intros [].
  - reflexivity.
Defined.

(** Two toggles restore the flag but not the status: the score ends
    SHORTLISTED if it was flagged at the start and REJECTED otherwise, also
    when it started as DRAFT or SUBMITTED. *)
Theorem toggle_twice (db : DB) (i : nat) (old : Score) :
  find (fun s => (score_id s =? i)%nat) (scores db) = Some old ->
  exists new,
    find (fun s => (score_id s =? i)%nat)
         (scores (fst (toggle_shortlist (fst (toggle_shortlist db i)) i))) = Some new
    /\ is_shortlisted new = is_shortlisted old
    /\ status new = (if is_shortlisted old then SHORTLISTED else REJECTED)
    /\ same_match old new.
Proof.
  intros Hfind.
  pose proof (find_by_id_key _ _ _ Hfind) as Hkey.
  set (mid := set_status (set_shortlisted old (negb (is_shortlisted old)))
                (if negb (is_shortlisted old) then SHORTLISTED else REJECTED)).
  assert (H1 : toggle_shortlist db i
               = (save_score db mid, Redirect "recruiter_dashboard" None)).
  { unfold toggle_shortlist. now rewrite Hfind. }
  assert (Hfind1 : find (fun s => (score_id s =? i)%nat) (scores (save_score db mid))
                   = Some mid)
    by exact (find_after_save (scores db) i old mid Hfind Hkey).
  rewrite H1. cbn [fst]. unfold toggle_shortlist at 1. rewrite Hfind1. cbn [fst].
  eexists. split.
  - apply (find_after_save _ i mid); [exact Hfind1 | exact Hkey].
  - unfold same_match, mid. simpl. rewrite negb_involutive.
    destruct (is_shortlisted old); auto 10.
Qed.

Lemma toggle_twice_witness :
  exists new,
    find (fun s => (score_id s =? 1)%nat)
         (scores (fst (toggle_shortlist (fst (toggle_shortlist Sample.one_draft 1)) 1)))
      = Some new
    /\ is_shortlisted new = false
    /\ status new = REJECTED
    /\ same_match (mkScore 1 1 1 (7093 / 100)%float "django" false DRAFT) new.
Proof.
  apply (toggle_twice Sample.one_draft 1
           (mkScore 1 1 1 (7093 / 100)%float "django" false DRAFT)).
  reflexivity.
Defined.

(** ** Invariants of the score table *)

Lemma flag_consistent_map (db : DB) (g : Score -> Score) :
  flag_consistent db ->
  (forall s, In s (scores db) ->
     (is_shortlisted (g s) = true <-> status (g s) = SHORTLISTED)) ->
  forall db', scores db' = map g (scores db) -> flag_consistent db'.
Proof.
  intros _ Hg db' Hs sc Hin. rewrite Hs in Hin.
  apply in_map_iff in Hin. destruct Hin as (s & <- & Hs'). now apply Hg.
Qed.

Lemma run_op_flag_consistent (db : DB) (op : Op) :
  flag_consistent db -> flag_consistent (run_op db op).
Proof.
  intros Hc.
  destruct op as [sw p request | u j | j | sel | sel]; simpl.
  - destruct (upload_resume_adds sw p db request)
      as (_ & ar & asc & _ & Hs & Hcase).
    intros sc Hin. rewrite Hs in Hin. apply in_app_or in Hin.
    destruct Hin as [Hin|Hin]; [now apply Hc|].
    destruct Hcase as [[_ ->]|(r & _ & _ & Hall)]; [contradiction|].
    rewrite Forall_forall in Hall.
    destruct (Hall sc Hin) as (job & _ & _ & _ & Hst & Hfl & _).
    rewrite Hst, Hfl. split; discriminate.
  - unfold submit_application.
    destruct (find _ (scores db)) as [score|] eqn:Hsub; [|exact Hc].
    destruct (negb (status_eqb (status score) DRAFT)) eqn:Hd; [exact Hc|].
    apply find_some in Hsub. destruct Hsub as [Hin _].
    assert (Hdraft : status score = DRAFT)
      by (destruct (status score); simpl in Hd; try discriminate; reflexivity).
    eapply (flag_consistent_map db); [exact Hc | | reflexivity].
    intros s Hs. simpl. destruct (score_id s =? score_id score)%nat; [|now apply Hc].
    simpl. pose proof (Hc score Hin) as Hsc. rewrite Hdraft in Hsc.
    split; [|discriminate]. intros Ht. apply Hsc in Ht. discriminate.
  - unfold toggle_shortlist.
    destruct (find _ (scores db)) as [score|] eqn:Htog; [|exact Hc].
    eapply (flag_consistent_map db); [exact Hc | | reflexivity].
    intros s Hs. simpl. destruct (score_id s =? score_id score)%nat; [|now apply Hc].
    simpl. destruct (is_shortlisted score); simpl; split; auto; discriminate.
  - eapply (flag_consistent_map db); [exact Hc | | reflexivity].
    intros s Hs. simpl. destruct (existsb _ sel); [|now apply Hc]. simpl. tauto.
  - eapply (flag_consistent_map db); [exact Hc | | reflexivity].
    intros s Hs. simpl. destruct (existsb _ sel); [|now apply Hc]. simpl.
    split; discriminate.
Qed.

(** Along any history of uploads, submissions, toggles and admin actions
    that starts from a store in which [is_shortlisted] is set exactly on the
    SHORTLISTED scores, it stays set exactly on the SHORTLISTED scores. *)
Theorem shortlist_flag_matches_status (ops : list Op) (db : DB) :
  flag_consistent db -> flag_consistent (run_ops db ops).
Proof.
  revert db. induction ops as [|op ops IH]; intros db Hc; simpl; [exact Hc|].
  apply IH. now apply run_op_flag_consistent.
Qed.

Lemma shortlist_flag_matches_status_witness :
  flag_consistent
    (run_ops Sample.one_job
       [OpUpload Sample.stop_words Sample.parsers (Sample.upload 7 Sample.text_ok);
        OpSubmit 7 1; OpToggle 1; OpMakeRejected [1]]).
Proof.
  apply (shortlist_flag_matches_status _ Sample.one_job).
  intros sc [].
Defined.

(** The admin actions write both fields together on exactly the selected
    scores: a selected score becomes SHORTLISTED and flagged (or REJECTED and
    unflagged), every other score is found as it was. *)
Theorem admin_actions_mark_selected (db : DB) (selected : list nat) (i : nat)
    (sc : Score) :
  find (fun s => (score_id s =? i)%nat) (scores db) = Some sc ->
  (In i selected ->
   exists a r,
     find (fun s => (score_id s =? i)%nat) (scores (make_shortlisted db selected))
       = Some a
     /\ status a = SHORTLISTED /\ is_shortlisted a = true /\ same_match sc a
     /\ find (fun s => (score_id s =? i)%nat) (scores (make_rejected db selected))
        = Some r
     /\ status r = REJECTED /\ is_shortlisted r = false /\ same_match sc r)
  /\ (~ In i selected ->
      find (fun s => (score_id s =? i)%nat) (scores (make_shortlisted db selected))
        = Some sc
      /\ find (fun s => (score_id s =? i)%nat) (scores (make_rejected db selected))
         = Some sc).
Proof.
  intros Hfind. pose proof (find_by_id_key _ _ _ Hfind) as Hkey.
  unfold make_shortlisted, make_rejected, queryset_update. cbn [scores].
  rewrite !find_map_same_key by (intros s; now destruct (existsb _ selected)).
  rewrite Hfind. cbn [option_map]. rewrite Hkey.
  destruct (existsb (Nat.eqb i) selected) eqn:E.
  - split.
    + intros _. do 2 eexists. repeat split; reflexivity.
    + intros Hnot. exfalso. apply Hnot.
      apply existsb_exists in E. destruct E as (x & Hx & Ex).
      apply Nat.eqb_eq in Ex. now subst x.
  - split; [|auto]. intros Hin. exfalso.
    assert (existsb (Nat.eqb i) selected = true)
      by (apply existsb_exists; exists i; split; [exact Hin | apply Nat.eqb_refl]).
    congruence.
Qed.

Lemma admin_actions_mark_selected_witness :
  (In 1 [1] ->
   exists a r,
     find (fun s => (score_id s =? 1)%nat)
          (scores (make_shortlisted Sample.one_draft [1])) = Some a
     /\ status a = SHORTLISTED /\ is_shortlisted a = true
     /\ same_match (mkScore 1 1 1 (7093 / 100)%float "django" false DRAFT) a
     /\ find (fun s => (score_id s =? 1)%nat)
             (scores (make_rejected Sample.one_draft [1])) = Some r
     /\ status r = REJECTED /\ is_shortlisted r = false
     /\ same_match (mkScore 1 1 1 (7093 / 100)%float "django" false DRAFT) r)
  /\ (~ In 1 [1] ->
      find (fun s => (score_id s =? 1)%nat)
           (scores (make_shortlisted Sample.one_draft [1]))
        = Some (mkScore 1 1 1 (7093 / 100)%float "django" false DRAFT)
      /\ find (fun s => (score_id s =? 1)%nat)
              (scores (make_rejected Sample.one_draft [1]))
         = Some (mkScore 1 1 1 (7093 / 100)%float "django" false DRAFT)).
Proof.
  apply (admin_actions_mark_selected Sample.one_draft [1] 1).
  reflexivity.
Defined.

Lemma NoDup_snoc_fresh (ids : list nat) :
  NoDup ids -> NoDup (ids ++ [next_id ids]).
Proof.
  intros Hnd. apply Permutation_NoDup with (l := next_id ids :: ids).
  - apply Permutation_cons_append.
  - constructor; [apply next_id_fresh | exact Hnd].
Qed.

Lemma map_rows_links (db : DB) (g : Score -> Score) (ss : list Score) :
  (forall s, In s (scores db) ->
     exists s0, In s0 (scores db) /\ score_resume (g s) = score_resume s0) ->
  ss = map g (scores db) ->
  (forall sc, In sc (scores db) ->
     exists r, In r (resumes db) /\ resume_id r = score_resume sc) ->
  forall sc, In sc ss -> exists r, In r (resumes db) /\ resume_id r = score_resume sc.
Proof.
  intros Hg -> Hfk sc Hin. apply in_map_iff in Hin.
  destruct Hin as (s & <- & Hs). destruct (Hg s Hs) as (s0 & Hs0 & ->). auto.
Qed.

Lemma run_op_well_formed (db : DB) (op : Op) :
  well_formed db -> well_formed (run_op db op).
Proof.
  intros (Hr & Hs & Hfk).
  split; [|split; [now apply run_op_keys|]].
  - destruct op as [sw p request | u j | j | sel | sel]; simpl;
      try exact Hr.
    + destruct (upload_resume_cases sw p db request)
        as [[-> _]|(fname & sk & db2 & e & Hloop & -> & _)]; [exact Hr|].
      cbv zeta in Hloop.
      destruct (create_draft_scores_appends _ _ _ _ _ _ _ _ _ Hloop) as (_ & -> & _).
      simpl. rewrite map_app. simpl. now apply NoDup_snoc_fresh.
    + unfold submit_application. destruct (find _ _); [|exact Hr].
      now destruct (negb _).
    + unfold toggle_shortlist. now destruct (find _ _).
  - destruct op as [sw p request | u j | j | sel | sel]; simpl.
    + destruct (upload_resume_cases sw p db request)
        as [[-> _]|(fname & sk & db2 & e & Hloop & -> & _)]; [exact Hfk|].
      cbv zeta in Hloop.
      destruct (create_draft_scores_appends _ _ _ _ _ _ _ _ _ Hloop)
        as (_ & -> & extra & -> & Hall).
      simpl. intros sc Hin. apply in_app_or in Hin. destruct Hin as [Hin|Hin].
      * destruct (Hfk sc Hin) as (r & Hr' & Hid). exists r.
        split; [apply in_or_app; now left | exact Hid].
      * rewrite Forall_forall in Hall. destruct (Hall sc Hin) as (_ & _ & ->).
        eexists. split; [apply in_or_app; right; now left | reflexivity].
    + unfold submit_application.
      destruct (find _ (scores db)) as [score|] eqn:Hsub; [|exact Hfk].
      destruct (negb _); [exact Hfk|].
      apply find_some in Hsub. destruct Hsub as [Hin _].
      eapply (map_rows_links db); [|reflexivity|exact Hfk].
      intros s Hs'. simpl. destruct (score_id s =? score_id score)%nat; eauto.
    + unfold toggle_shortlist.
      destruct (find _ (scores db)) as [score|] eqn:Htog; [|exact Hfk].
      apply find_some in Htog. destruct Htog as [Hin _].
      eapply (map_rows_links db); [|reflexivity|exact Hfk].
      intros s Hs'. simpl. destruct (score_id s =? score_id score)%nat; eauto.
    + eapply (map_rows_links db); [|reflexivity|exact Hfk].
      intros s Hs'. simpl. destruct (existsb _ sel); eauto.
    + eapply (map_rows_links db); [|reflexivity|exact Hfk].
      intros s Hs'. simpl. destruct (existsb _ sel); eauto.
Qed.

(** Every history keeps the store well formed: resume keys and score keys
    stay unique (a new row gets a key above all keys in use), and every
    score keeps pointing at a stored resume. *)
Theorem histories_keep_store_well_formed (ops : list Op) (db : DB) :
  well_formed db -> well_formed (run_ops db ops).
Proof.
  revert db. induction ops as [|op ops IH]; intros db Hwf; simpl; [exact Hwf|].
  apply IH. now apply run_op_well_formed.
Qed.

Lemma histories_keep_store_well_formed_witness :
  well_formed
    (run_ops Sample.one_job
       [OpUpload Sample.stop_words Sample.parsers (Sample.upload 7 Sample.text_ok);
        OpSubmit 7 1; OpToggle 1]).
Proof.
  apply (histories_keep_store_well_formed _ Sample.one_job).
  repeat split; simpl; try constructor. intros sc [].
Defined.

(** ** Documents that cannot be read *)

(** A PDF or DOCX upload whose parser fails yields no text, so the view
    rejects it as "not a resume" and stores nothing; the suffix is matched
    without regard to case. *)
Theorem unreadable_document_is_rejected (stop_words : list string) (p : Parsers)
    (db : DB) (request : Request) (file : UploadedFile) :
  posted_file request = Some file ->
  (endswith (lower (file_name file)) ".pdf" = true
   /\ pdf_pages p (file_bytes file) = None)
  \/ (endswith (lower (file_name file)) ".pdf" = false
      /\ endswith (lower (file_name file)) ".docx" = true
      /\ docx_paragraphs p (file_bytes file) = None) ->
  extract_text_from_resume p file = ""
  /\ upload_resume stop_words p db request
     = (db, Redirect "upload_resume" (Some (ERROR, MSG_NOT_A_RESUME))).
Proof.
  intros Hfile Hbad.
  assert (Htext : extract_text_from_resume p file = "").
  { unfold extract_text_from_resume.
    destruct Hbad as [[-> ->]|(-> & -> & ->)]; reflexivity. }
  split; [exact Htext|].
  unfold upload_resume. rewrite Hfile, Htext. reflexivity.
Qed.

Lemma unreadable_document_is_rejected_witness :
  extract_text_from_resume Sample.parsers (mkFile "CV.PDF" Sample.text_ok) = ""
  /\ upload_resume Sample.stop_words Sample.parsers Sample.one_job
       (mkRequest "POST" 7 (Some (mkFile "CV.PDF" Sample.text_ok)) None)
     = (Sample.one_job, Redirect "upload_resume" (Some (ERROR, MSG_NOT_A_RESUME))).
Proof.
  apply (unreadable_document_is_rejected Sample.stop_words Sample.parsers
           Sample.one_job
           (mkRequest "POST" 7 (Some (mkFile "CV.PDF" Sample.text_ok)) None)
           (mkFile "CV.PDF" Sample.text_ok)).
  - reflexivity.
  - left. split; reflexivity.
Defined.

(** ** The job list *)

Lemma applied_job_ids_In (db : DB) (u j : nat) :
  In j (applied_job_ids db (Some u))
  <-> exists sc, In sc (scores db) /\ score_job sc = j
                 /\ score_owner db sc = Some u
                 /\ submitted_or_later (status sc) = true.
Proof.
  unfold applied_job_ids. rewrite nodup_In, in_map_iff. split.
  - intros (sc & Hj & Hin). apply filter_In in Hin. destruct Hin as [Hin Hm].
    apply andb_true_iff in Hm. destruct Hm as [Ho Hst].
    exists sc. repeat split; auto.
    destruct (score_owner db sc) as [w|]; [|discriminate].
    apply Nat.eqb_eq in Ho. now subst.
  - intros (sc & Hin & Hj & Ho & Hst). exists sc. split; [exact Hj|].
    apply filter_In. split; [exact Hin|]. now rewrite Ho, Nat.eqb_refl, Hst.
Qed.

(** Uploading a resume marks no job as applied: the draft scores it creates
    do not count, so the applied list of every visitor is the same list
    before and after the upload. *)
Theorem upload_marks_nothing_applied (stop_words : list string) (p : Parsers)
    (db : DB) (request : Request) (visitor : option nat) :
  (forall sc, In sc (scores db) -> score_owner db sc <> None) ->
  applied_job_ids (fst (upload_resume stop_words p db request)) visitor
  = applied_job_ids db visitor.
Proof.
  intros Hfk. destruct visitor as [u|]; [|reflexivity].
  destruct (upload_resume_cases stop_words p db request)
    as [[-> _]|(fname & sk & db2 & e & Hloop & -> & _)]; [reflexivity|].
  cbv zeta in Hloop.
  destruct (create_draft_scores_appends _ _ _ _ _ _ _ _ _ Hloop)
    as (_ & Hr & extra & Hs & Hall).
  unfold applied_job_ids. f_equal. f_equal. rewrite Hs, filter_app.
  assert (Hnew : filter (fun sc => match score_owner db2 sc with
                                   | Some w => (w =? u)%nat
                                   | None => false
                                   end && submitted_or_later (status sc)) extra = []).
  { clear - Hall. induction Hall as [|sc l (Hst & _) _ IH]; [reflexivity|].
    simpl. rewrite Hst. simpl. rewrite andb_false_r. exact IH. }
  rewrite Hnew, app_nil_r. simpl. apply filter_ext_in.
  intros sc Hin. f_equal.
  destruct (score_owner db sc) as [w|] eqn:E; [|now apply Hfk in Hin].
  unfold score_owner in *. rewrite Hr. simpl.
  destruct (find _ (resumes db)) as [x|] eqn:Ex; [|discriminate].
  rewrite (find_app_some _ _ _ _ _ Ex). simpl in *. now injection E as ->.
Qed.

Lemma upload_marks_nothing_applied_witness :
  applied_job_ids (fst (upload_resume Sample.stop_words Sample.parsers
                          Sample.one_job (Sample.upload 7 Sample.text_ok))) (Some 7)
  = applied_job_ids Sample.one_job (Some 7).
Proof.
  apply (upload_marks_nothing_applied Sample.stop_words Sample.parsers
           Sample.one_job (Sample.upload 7 Sample.text_ok) (Some 7)).
  intros sc [].
Defined.

(** A successful submission puts the job of the score on the applied list
    of the submitting user. *)
Theorem submission_marks_job_applied (db : DB) (u i : nat) (m : string) :
  snd (submit_application db u i)
  = Redirect "my_applications" (Some (SUCCESS, m)) ->
  exists sc, In sc (scores db) /\ score_id sc = i /\ status sc = DRAFT
             /\ In (score_job sc)
                   (applied_job_ids (fst (submit_application db u i)) (Some u)).
Proof.
  unfold submit_application.
  destruct (find _ (scores db)) as [sc|] eqn:Hfind; [|discriminate].
  destruct (negb (status_eqb (status sc) DRAFT)) eqn:Hd; [discriminate|].
  intros _. cbn [fst].
  pose proof (find_owned_after_save db u i sc SUBMITTED Hfind) as Hnew.
  apply find_some in Hfind. destruct Hfind as [Hin Hp].
  apply andb_true_iff in Hp. destruct Hp as [Hid _]. apply Nat.eqb_eq in Hid.
  exists sc. repeat split; auto.
  - destruct (status sc); simpl in Hd; try discriminate; reflexivity.
  - apply applied_job_ids_In. exists (set_status sc SUBMITTED).
    apply find_some in Hnew. destruct Hnew as [Hin' Hp'].
    apply andb_true_iff in Hp'. destruct Hp' as [_ Ho].
    repeat split; auto.
    destruct (score_owner _ (set_status sc SUBMITTED)) as [w|]; [|discriminate].
    apply Nat.eqb_eq in Ho. now subst.
Qed.

Lemma submission_marks_job_applied_witness :
  exists sc, In sc (scores Sample.one_draft) /\ score_id sc = 1 /\ status sc = DRAFT
             /\ In (score_job sc)
                   (applied_job_ids (fst (submit_application Sample.one_draft 7 1))
                      (Some 7)).
Proof.
  apply (submission_marks_job_applied Sample.one_draft 7 1
           "Application for 'Backend developer' submitted to recruiter.").
  reflexivity.
Defined.

(** ** My applications *)

Section MyApplications.

Lemma insert_by_id_desc_perm (sc : Score) (l : list Score) :
  Permutation (sc :: l) (insert_by_id_desc sc l).
Proof.
  induction l as [|x l IH]; simpl; [reflexivity|].
  destruct (score_id x <=? score_id sc)%nat; [reflexivity|].
  rewrite perm_swap. now constructor.
Qed.

Lemma order_by_id_desc_perm (l : list Score) : Permutation l (order_by_id_desc l).
Proof.
  induction l as [|x l IH]; simpl; [constructor|].
  rewrite <- insert_by_id_desc_perm. now constructor.
Qed.

Lemma insert_by_id_desc_sorted (sc : Score) (l : list Score) :
  StronglySorted id_ge l -> StronglySorted id_ge (insert_by_id_desc sc l).
Proof.
  induction l as [|x l IH]; simpl; intros Hs; [repeat constructor|].
  apply StronglySorted_inv in Hs. destruct Hs as [Hs Hall].
  destruct (score_id x <=? score_id sc)%nat eqn:E.
  - apply Nat.leb_le in E. constructor; [now constructor|].
    constructor; [exact E|].
    eapply Forall_impl; [|exact Hall]. unfold id_ge. intros; lia.
  - apply Nat.leb_gt in E. constructor; [now apply IH|].
    apply (Permutation_Forall (insert_by_id_desc_perm sc l)).
    constructor; [unfold id_ge; lia | exact Hall].
Qed.

Lemma order_by_id_desc_sorted (l : list Score) :
  StronglySorted id_ge (order_by_id_desc l).
Proof.
  induction l as [|x l IH]; simpl; [constructor|].
  now apply insert_by_id_desc_sorted.
Qed.

Lemma NoDup_map_filter (A B : Type) (f : A -> B) (g : A -> bool) (l : list A) :
  NoDup (map f l) -> NoDup (map f (filter g l)).
Proof.
  induction l as [|a l IH]; simpl; intros Hnd; [constructor|].
  inversion Hnd as [|? ? Hnotin Hnd']; subst.
  destruct (g a); simpl; [|now apply IH].
  constructor; [|now apply IH].
  intros Hin. apply Hnotin. apply in_map_iff in Hin.
  destruct Hin as (x & Hx & Hin). apply filter_In in Hin.
  apply in_map_iff. exists x. tauto.
Qed.

End MyApplications.

(** [my_applications] shows a user the scores of the user's own resumes, all
    of them and no score of anybody else; with unique keys the rows come in
    strictly decreasing key order, newest first. *)
Theorem my_applications_own_scores_newest_first (db : DB) (u : nat) :
  (forall sc, In sc (my_applications db u)
              <-> In sc (scores db) /\ score_owner db sc = Some u)
  /\ (NoDup (map score_id (scores db)) ->
      StronglySorted (fun a b => score_id b < score_id a) (my_applications db u)).
Proof.
  unfold my_applications.
  set (mine := filter _ (scores db)). split.
  - intros sc. split.
    + intros Hin. apply (Permutation_in _ (Permutation_sym (order_by_id_desc_perm mine)))
        in Hin.
      apply filter_In in Hin. destruct Hin as [Hin Ho]. split; [exact Hin|].
      destruct (score_owner db sc) as [w|]; [|discriminate].
      apply Nat.eqb_eq in Ho. now subst.
    + intros [Hin Ho]. apply (Permutation_in _ (order_by_id_desc_perm mine)).
      apply filter_In. split; [exact Hin|]. now rewrite Ho, Nat.eqb_refl.
  - intros Hnd.
    assert (Hnd' : NoDup (map score_id (order_by_id_desc mine))).
    { eapply Permutation_NoDup;
        [apply Permutation_map, order_by_id_desc_perm|].
      now apply NoDup_map_filter. }
    pose proof (order_by_id_desc_sorted mine) as Hs.
    induction Hs as [|a r Hs IH Hall]; [constructor|].
    simpl in Hnd'. inversion Hnd' as [|? ? Hnotin Hnd'']; subst.
    constructor; [now apply IH|].
    rewrite Forall_forall in *. intros b Hb.
    specialize (Hall b Hb). unfold id_ge in Hall.
    assert (score_id b <> score_id a).
    { intros E. apply Hnotin. rewrite <- E. now apply in_map. }
    lia.
Qed.

(** ** Registration *)

Section Registration.

Variable make_password : string -> string.

(** What a registration does to the accounts: nothing, unless it succeeds,
    and then it adds one user and that user's applicant profile. *)
Lemma register_view_cases (acc : Accounts) (form : RegisterForm) :
  (fst (register_view make_password acc form) = acc
   /\ fst (snd (register_view make_password acc form))
      <> Some (SUCCESS, MSG_REGISTERED))
  \/ (let email := lower (strip (get_or_empty (form_email form))) in
      let phone := strip (get_or_empty (form_phone form)) in
      let user := mkUser (next_id (map user_id (users acc))) email email
                         (make_password (get_or_empty (form_password1 form))) in
      let applicant :=
        mkApplicant (user_id user) (strip (get_or_empty (form_full_name form))) phone in
      register_view make_password acc form
      = (mkAccounts (users acc ++ [user]) (applicants acc ++ [applicant]),
         (Some (SUCCESS, MSG_REGISTERED), Redirect "login" None))
      /\ form_method form = "POST"
      /\ truthy (strip (get_or_empty (form_full_name form))) = true
      /\ truthy email = true /\ truthy phone = true
      /\ given (form_password1 form) = true
      /\ form_password1 form = form_password2 form
      /\ existsb (fun us => String.eqb (user_username us) email) (users acc) = false
      /\ existsb (fun ap => String.eqb (applicant_phone ap) phone) (applicants acc)
         = false).
Proof.
  unfold register_view.
  destruct (String.eqb (form_method form) "POST") eqn:Hm;
    [|left; split; [reflexivity | discriminate]].
  apply String.eqb_eq in Hm.
  destruct (negb (truthy _) || _ || _ || _ || _) eqn:Hreq;
    [left; split; [reflexivity | intros E; vm_compute in E; discriminate E]|].
  destruct (negb (option_string_eqb _ _)) eqn:Hpw;
    [left; split; [reflexivity | intros E; vm_compute in E; discriminate E]|].
  destruct (existsb _ (users acc)) eqn:Hu;
    [left; split; [reflexivity | intros E; vm_compute in E; discriminate E]|].
  destruct (existsb _ (applicants acc)) eqn:Hp;
    [left; split; [reflexivity | intros E; vm_compute in E; discriminate E]|].
  right. cbv zeta.
  repeat (apply orb_false_iff in Hreq; destruct Hreq as [Hreq ?]).
  repeat match goal with H : negb _ = false |- _ => apply negb_false_iff in H end.
  repeat split; auto.
  destruct (form_password1 form) as [a|], (form_password2 form) as [b|];
    simpl in *; try discriminate.
  apply String.eqb_eq in Hpw. now subst.
Qed.

(** Registration keeps accounts unique: no two users share a key or a user
    name (the lowered, trimmed e-mail address), and no two applicant
    profiles share a phone number - the last only because the view checks
    it. *)
Theorem register_keeps_accounts_unique (acc : Accounts) (form : RegisterForm) :
  NoDup (map user_id (users acc)) ->
  NoDup (map user_username (users acc)) ->
  NoDup (map applicant_phone (applicants acc)) ->
  NoDup (map user_id (users (fst (register_view make_password acc form))))
  /\ NoDup (map user_username (users (fst (register_view make_password acc form))))
  /\ NoDup (map applicant_phone
              (applicants (fst (register_view make_password acc form)))).
Proof.
  intros Hid Hname Hphone.
  destruct (register_view_cases acc form)
    as [[-> _]|(-> & _ & _ & _ & _ & _ & _ & Hu & Hp)]; [auto|].
  cbn [fst users applicants]. rewrite !map_app. cbn [map].
  cbn [user_id user_username applicant_phone].
  split; [now apply NoDup_snoc_fresh|].
  assert (Hfresh : forall (A : Type) (f : A -> string) (l : list A) (x : string),
             existsb (fun a => String.eqb (f a) x) l = false ->
             NoDup (map f l) -> NoDup (map f l ++ [x])).
  { intros A f l x Hex Hnd.
    apply Permutation_NoDup with (l := x :: map f l);
      [apply Permutation_cons_append|].
    constructor; [|exact Hnd]. intros Hin. apply in_map_iff in Hin.
    destruct Hin as (a & Ha & Hin).
    assert (existsb (fun a => String.eqb (f a) x) l = true)
      by (apply existsb_exists; exists a; split;
          [exact Hin | now apply String.eqb_eq]).
    congruence. }
  split; apply Hfresh; assumption.
Qed.

(** The same form cannot register twice: after a successful registration a
    second submission of it is refused because the e-mail is taken, and the
    accounts stay as the first registration left them. *)
Theorem register_twice_is_refused (acc : Accounts) (form : RegisterForm) :
  fst (snd (register_view make_password acc form)) = Some (SUCCESS, MSG_REGISTERED) ->
  register_view make_password (fst (register_view make_password acc form)) form
  = (fst (register_view make_password acc form),
     (Some (ERROR, MSG_EMAIL_TAKEN), Redirect "login" None)).
Proof.
  intros Hok.
  destruct (register_view_cases acc form)
    as [[_ Hno]|(H1 & Hm & Hfull & He & Hp & Hg & Hpw & _ & _)]; [contradiction|].
  cbv zeta in *. rewrite H1. cbn [fst].
  unfold register_view at 1. rewrite Hm.
  change (String.eqb "POST" "POST") with true. cbv iota.
  rewrite Hfull, He, Hp, <- Hpw, Hg. cbn [negb orb].
  assert (Hsame : option_string_eqb (form_password1 form) (form_password1 form) = true)
    by (destruct (form_password1 form); simpl; [apply String.eqb_refl | reflexivity]).
  rewrite Hsame. cbn [negb users].
  rewrite existsb_app. cbn [existsb user_username].
  now rewrite String.eqb_refl, orb_true_r.
Qed.

End Registration.

Lemma register_keeps_accounts_unique_witness :
  NoDup (map user_id
           (users (fst (register_view SampleAccounts.hasher SampleAccounts.nobody
                          SampleAccounts.form))))
  /\ NoDup (map user_username
              (users (fst (register_view SampleAccounts.hasher SampleAccounts.nobody
                             SampleAccounts.form))))
  /\ NoDup (map applicant_phone
              (applicants (fst (register_view SampleAccounts.hasher
                                  SampleAccounts.nobody SampleAccounts.form)))).
Proof.
  apply (register_keeps_accounts_unique SampleAccounts.hasher SampleAccounts.nobody
           SampleAccounts.form); simpl; constructor.
Defined.

Lemma register_twice_is_refused_witness :
  register_view SampleAccounts.hasher
    (fst (register_view SampleAccounts.hasher SampleAccounts.nobody SampleAccounts.form))
    SampleAccounts.form
  = (fst (register_view SampleAccounts.hasher SampleAccounts.nobody SampleAccounts.form),
     (Some (ERROR, MSG_EMAIL_TAKEN), Redirect "login" None)).
Proof.
  apply (register_twice_is_refused SampleAccounts.hasher SampleAccounts.nobody
           SampleAccounts.form).
  reflexivity.
Defined.

(** The sample registration: the user name is the trimmed, lowered e-mail. *)
Example register_sample :
  users (fst (register_view SampleAccounts.hasher SampleAccounts.nobody
                SampleAccounts.form))
  = [mkUser 1 "ada@example.com" "ada@example.com" "hashed:s3cret"]
  /\ applicants (fst (register_view SampleAccounts.hasher SampleAccounts.nobody
                        SampleAccounts.form))
     = [mkApplicant 1 "Ada Lovelace" "0123456789"].
Proof. split; reflexivity. Qed.

(** ** Skills typed in the form *)

Section TypedSkills.

Lemma split_nonempty (sep : ascii) (s : string) : split sep s <> [].
Proof.
  destruct s as [|c s]; simpl; [discriminate|].
  destruct (Ascii.eqb c sep); [discriminate|].
  destruct (split sep s); discriminate.
Qed.

(** Splitting distributes over a separator between two texts. *)
Lemma split_app (sep : ascii) (a b : string) :
  split sep (a ++ String sep b) = split sep a ++ split sep b.
Proof.
  induction a as [|c a IH]; simpl.
  - now rewrite Ascii.eqb_refl.
  - destruct (Ascii.eqb c sep); [now rewrite IH|].
    rewrite IH. pose proof (split_nonempty sep a) as Hne.
    destruct (split sep a); [contradiction | reflexivity].
Qed.

Lemma tokens_leading_space (b : string) :
  spec_skill_tokens (String " " b) = spec_skill_tokens b.
Proof.
  unfold spec_skill_tokens.
  change (split "," (String " " b))
    with (match split "," b with
          | [] => [String " " EmptyString]
          | w :: ws => String " " w :: ws
          end).
  pose proof (split_nonempty "," b) as Hne.
  destruct (split "," b) as [|w ws]; [contradiction|]. reflexivity.
Qed.

Lemma tokens_of_joined (a b t : string) :
  In t (spec_skill_tokens (join ", " [a; b]))
  <-> In t (spec_skill_tokens a) \/ In t (spec_skill_tokens b).
Proof.
  change (join ", " [a; b]) with (a ++ String "," (String " " b))%string.
  rewrite <- (tokens_leading_space b). unfold spec_skill_tokens.
  rewrite split_app, !map_app, filter_app. apply in_app_iff.
Qed.

End TypedSkills.

(** Skills typed in the form count like the extracted ones: the skills text
    the view stores is the extracted skills followed by the typed ones, and
    no token of either is ever listed as missing for a job. *)
Theorem typed_skills_are_not_missing (extracted_skills extra_skills job_text : string) :
  exists L,
    missing_skills (join ", " [extracted_skills; extra_skills]) job_text = join ", " L
    /\ forall t, In t L <->
         In t (spec_skill_tokens job_text)
         /\ ~ In t (spec_skill_tokens extracted_skills)
         /\ ~ In t (spec_skill_tokens extra_skills).
Proof.
  eexists. split; [reflexivity|]. intros t.
  rewrite sorted_In, set_diff_In, !skills_set_In, tokens_of_joined. tauto.
Qed.
